(** * Schema extraction and ERD rendering: a shallow embedding

    Embeds [scripts/project/extract_database_schema.py] and
    [scripts/project/generate_erd.py].

    Text is modelled as a list of characters.  The character tests below are
    Python's [\w], [\s] and [str.lower] restricted to ASCII: a character
    above 127 is neither a word character nor white space and is left alone
    by [lower].  A file's content is what [f.read()] returns. *)

From Stdlib Require Import Ascii String ZArith List Arith Bool Lia Sorted.

Import ListNotations.

Set Implicit Arguments.

(* ================================================================== *)
(** ** Text *)

Definition text := list ascii.

Definition str (s : string) : text := list_ascii_of_string s.

Arguments str : simpl never.

Definition nl : ascii := ascii_of_nat 10.

Definition dquote : ascii := ascii_of_nat 34.

Definition squote : ascii := ascii_of_nat 39.

Definition in_range (lo hi : nat) (c : ascii) : bool :=
  let n := nat_of_ascii c in (lo <=? n) && (n <=? hi).

(** [\w] : letters, digits and the underscore. *)
Definition is_word (c : ascii) : bool :=
  in_range 97 122 c || in_range 65 90 c || in_range 48 57 c
  || (nat_of_ascii c =? 95).

(** [\s] and [str.isspace]: tab, line feed, vertical tab, form feed,
    carriage return, the four separators 28..31 and the space. *)
Definition is_space (c : ascii) : bool :=
  in_range 9 13 c || in_range 28 32 c.

(** [.] without DOTALL: anything but a line feed. *)
Definition is_dot (c : ascii) : bool := negb (Ascii.eqb c nl).

Definition lower_char (c : ascii) : ascii :=
  if in_range 65 90 c then ascii_of_nat (nat_of_ascii c + 32) else c.

(** [str.lower] *)
Definition lower (s : text) : text := map lower_char s.

Fixpoint text_eqb (a b : text) : bool :=
  match a, b with
  | [], [] => true
  | x :: a', y :: b' => Ascii.eqb x y && text_eqb a' b'
  | _, _ => false
  end.

(** [str.startswith] *)
Fixpoint startswith (p s : text) : bool :=
  match p, s with
  | [], _ => true
  | x :: p', y :: s' => Ascii.eqb x y && startswith p' s'
  | _ :: _, [] => false
  end.

(** [needle in s] *)
Fixpoint contains (needle s : text) : bool :=
  startswith needle s ||
  match s with
  | [] => false
  | _ :: s' => contains needle s'
  end.

Fixpoint lstrip (s : text) : text :=
  match s with
  | c :: s' => if is_space c then lstrip s' else s
  | [] => []
  end.

(** [str.strip] *)
Definition strip (s : text) : text := rev (lstrip (rev (lstrip s))).

(** [s.split(sep)] for a one-character separator: the pieces between the
    separators, always at least one piece. *)
Fixpoint split_on (sep : ascii) (s : text) : list text :=
  match s with
  | [] => [[]]
  | c :: s' =>
      if Ascii.eqb c sep then [] :: split_on sep s'
      else match split_on sep s' with
           | l :: ls => (c :: l) :: ls
           | [] => [[c]]
           end
  end.

(** [sep.join(parts)] *)
Fixpoint join (sep : text) (parts : list text) : text :=
  match parts with
  | [] => []
  | [p] => p
  | p :: ps => p ++ sep ++ join sep ps
  end.

(* ================================================================== *)
(** ** Regular expressions

    The fragment of Python's [re] the two extractors use: literals,
    character classes, concatenation, the greedy [*], [+] and [?], counted
    repetition and capturing groups.  Matching is by backtracking, greedy
    alternatives first, as in [re]; a capture made on an abandoned branch is
    forgotten.  No pattern of the program has a repetition whose body can
    match the empty string, so an iteration of [*] must consume input. *)

Inductive regex : Type :=
| Eps
| Lit (c : ascii)
| Cls (p : ascii -> bool)
| Seq (r1 r2 : regex)
| Star (r : regex)
| Opt (r : regex)
| Grp (n : nat) (r : regex).

Definition Plus (r : regex) : regex := Seq r (Star r).

Fixpoint Lits (s : text) : regex :=
  match s with
  | [] => Eps
  | c :: s' => Seq (Lit c) (Lits s')
  end.

Fixpoint Rep (n : nat) (r : regex) : regex :=
  match n with
  | 0 => Eps
  | S n' => Seq r (Rep n' r)
  end.

(** Newest capture first. *)
Definition groups := list (nat * text).

(** The text consumed between [s] and its suffix [s']. *)
Definition consumed (s s' : text) : text :=
  firstn (length s - length s') s.

Fixpoint rmatch (A : Type) (r : regex) (s : text) (g : groups)
    (k : text -> groups -> option A) {struct r} : option A :=
  match r with
  | Eps => k s g
  | Lit c =>
      match s with
      | x :: s' => if Ascii.eqb x c then k s' g else None
      | [] => None
      end
  | Cls p =>
      match s with
      | x :: s' => if p x then k s' g else None
      | [] => None
      end
  | Seq r1 r2 => rmatch r1 s g (fun s' g' => rmatch r2 s' g' k)
  | Opt r1 =>
      match rmatch r1 s g k with
      | Some a => Some a
      | None => k s g
      end
  | Grp n r1 =>
      rmatch r1 s g (fun s' g' => k s' ((n, consumed s s') :: g'))
  | Star r1 =>
      (fix loop (fuel : nat) (s : text) (g : groups) {struct fuel} : option A :=
         match fuel with
         | 0 => k s g
         | S fuel' =>
             match rmatch r1 s g
                     (fun s' g' =>
                        if length s' <? length s then loop fuel' s' g'
                        else None) with
             | Some a => Some a
             | None => k s g
             end
         end) (length s) s g
  end.

(** A match object: where it starts, [group(0)], the captures. *)
Record Match : Type := mkMatch {
  m_start : nat;
  m_text : text;
  m_groups : groups
}.

(** [m.group(n)] for a group that took part in the match. *)
Fixpoint lookup_group (n : nat) (g : groups) : text :=
  match g with
  | [] => []
  | (i, t) :: g' => if i =? n then t else lookup_group n g'
  end.

Definition group (n : nat) (m : Match) : text :=
  match n with
  | 0 => m_text m
  | _ => lookup_group n (m_groups m)
  end.

(** One attempt at the head of [s]: the captures and the rest. *)
Definition match_here (r : regex) (s : text) : option (groups * text) :=
  rmatch r s [] (fun s' g => Some (g, s')).

(** [re.match(r, s)] *)
Definition re_match (r : regex) (s : text) : option Match :=
  match match_here r s with
  | Some (g, s') => Some (mkMatch 0 (consumed s s') g)
  | None => None
  end.

(** [re.finditer(r, s)]: leftmost matches, left to right, not overlapping.
    After an empty match the scan moves on by one character. *)
Fixpoint finditer_from (fuel : nat) (r : regex) (pos : nat) (s : text)
    : list Match :=
  match fuel with
  | 0 => []
  | S fuel' =>
      match match_here r s with
      | Some (g, s') =>
          let n := length s - length s' in
          mkMatch pos (firstn n s) g ::
          (if n =? 0
           then match s with
                | [] => []
                | _ :: t => finditer_from fuel' r (S pos) t
                end
           else finditer_from fuel' r (pos + n) s')
      | None =>
          match s with
          | [] => []
          | _ :: t => finditer_from fuel' r (S pos) t
          end
      end
  end.

Definition finditer (r : regex) (s : text) : list Match :=
  finditer_from (S (length s)) r 0 s.

(** [re.search(r, s)]: the leftmost match, if any. *)
Fixpoint re_search (r : regex) (s : text) : option Match :=
  match match_here r s with
  | Some (g, s') => Some (mkMatch 0 (consumed s s') g)
  | None =>
      match s with
      | [] => None
      | _ :: t =>
          match re_search r t with
          | Some m => Some (mkMatch (S (m_start m)) (m_text m) (m_groups m))
          | None => None
          end
      end
  end.

Fixpoint seqs (rs : list regex) : regex :=
  match rs with
  | [] => Eps
  | [r] => r
  | r :: rs' => Seq r (seqs rs')
  end.

Definition ws : regex := Cls is_space.

Definition word : regex := Cls is_word.

Definition dot : regex := Cls is_dot.

(* ================================================================== *)
(** ** Data model ([extract_database_schema.py], lines 24-52) *)

Record Field : Type := mkField {
  f_name : text;
  f_type : text;
  nullable : bool;
  primary_key : bool;
  foreign_key : option text;
  unique : bool;
  default : option text
}.

(** A relationship dictionary: the keys [from], [to], [type], [field]. *)
Record Rel : Type := mkRel {
  rel_from : text;
  rel_to : text;
  rel_type : text;
  rel_field : text
}.

Record Entity : Type := mkEntity {
  e_name : text;
  table_name : text;
  fields : list Field;
  indexes : list text;
  e_relationships : list Rel
}.

Record SchemaReport : Type := mkReport {
  entities : list Entity;
  relationships : list Rel;
  database_type : option text;
  orm_framework : option text
}.

(** [Field(name=..., type=...)] and [Entity(name=..., table_name=...)] with
    the dataclass defaults. *)
Definition new_field (name type : text) : Field :=
  mkField name type true false None false None.

Definition new_entity (name tname : text) : Entity :=
  mkEntity name tname [] [] [].

Definition set_primary_key (b : bool) (f : Field) : Field :=
  mkField (f_name f) (f_type f) (nullable f) b (foreign_key f) (unique f)
          (default f).

Definition set_nullable (b : bool) (f : Field) : Field :=
  mkField (f_name f) (f_type f) b (primary_key f) (foreign_key f) (unique f)
          (default f).

Definition set_foreign_key (t : option text) (f : Field) : Field :=
  mkField (f_name f) (f_type f) (nullable f) (primary_key f) t (unique f)
          (default f).

Definition set_fields (fs : list Field) (e : Entity) : Entity :=
  mkEntity (e_name e) (table_name e) fs (indexes e) (e_relationships e).

(* ================================================================== *)
(** ** The Django extractor ([parse_django_models], lines 105-161) *)

(** Line 121: the word class, white space, the class name (group 1), an
    opening parenthesis, any characters, models.Model, any characters, a
    closing parenthesis and a colon, white space up to a line feed; then
    group 2, the body: every following line that starts with four
    white-space characters, each with its line feed. *)
Definition class_pattern : regex :=
  seqs [Lits (str "class"); Plus ws; Grp 1 (Plus word); Lit "("%char;
        Star dot; Lits (str "models.Model"); Star dot; Lit ")"%char;
        Lit ":"%char; Star ws; Lit nl;
        Grp 2 (Star (seqs [Rep 4 ws; Star dot; Lit nl]))].

Definition is_quote (c : ascii) : bool :=
  Ascii.eqb c squote || Ascii.eqb c dquote.

(** Line 128: the word class, white space, Meta and a colon, any characters
    of the same line, db_table, an equals sign between optional white space,
    and the name (group 1) between two quote characters, single or double. *)
Definition meta_pattern : regex :=
  seqs [Lits (str "class"); Plus ws; Lits (str "Meta:"); Star dot;
        Lits (str "db_table"); Star ws; Lit "="%char; Star ws;
        Cls is_quote; Grp 1 (Plus word); Cls is_quote].

(** Lines 135-141: a name (group 1), an equals sign between optional white
    space, and models.Ctor for the constructor of the row. *)
Definition field_decl (ctor : string) : regex :=
  seqs [Grp 1 (Plus word); Star ws; Lit "="%char; Star ws;
        Lits (str "models."); Lits (str ctor)].

Definition field_patterns : list (regex * text) :=
  [ (field_decl "CharField", str "string");
    (field_decl "TextField", str "text");
    (field_decl "IntegerField", str "integer");
    (field_decl "BooleanField", str "boolean");
    (field_decl "DateTimeField", str "datetime");
    (field_decl "DateField", str "date");
    (field_decl "ForeignKey", str "foreign_key") ].

(** The body of the inner loop (lines 146-157): the field built from one
    match of one declaration pattern. *)
Definition django_field (field_type : text) (field_match : Match) : Field :=
  let field_name := group 1 field_match in
  let field_obj := new_field field_name field_type in
  let field_obj :=
    if contains (str "primary_key=True") (group 0 field_match)
    then set_primary_key true field_obj else field_obj in
  let field_obj :=
    if contains (str "null=False") (group 0 field_match)
    then set_nullable false field_obj else field_obj in
  field_obj.

(** Lines 144-157: the patterns in table order, and for each pattern its
    matches from left to right; every field is appended. *)
Definition django_fields (class_body : text) : list Field :=
  flat_map (fun pt => map (django_field (snd pt))
                          (finditer (fst pt) class_body))
           field_patterns.

(** Lines 128-129. *)
Definition django_table_name (class_name class_body : text) : text :=
  match re_search meta_pattern class_body with
  | Some meta_match => group 1 meta_match
  | None => lower class_name ++ str "s"
  end.

(** The body of the outer loop (lines 124-159). *)
Definition django_entity (m : Match) : Entity :=
  let class_name := group 1 m in
  let class_body := group 2 m in
  let entity := new_entity class_name (django_table_name class_name class_body) in
  set_fields (fields entity ++ django_fields class_body) entity.

(** [parse_django_models] on the text read from the file. *)
Definition parse_django_text (content : text) : list Entity :=
  map django_entity (finditer class_pattern content).

(* ================================================================== *)
(** ** The Prisma extractor ([parse_prisma_schema], lines 164-219) *)

Definition not_rbrace (c : ascii) : bool := negb (Ascii.eqb c "}"%char).

(** Line 180: the word model, white space, the model name (group 1),
    optional white space, and between braces the body (group 2): one or
    more characters other than a closing brace. *)
Definition model_pattern : regex :=
  seqs [Lits (str "model"); Plus ws; Grp 1 (Plus word); Star ws;
        Lit "{"%char; Grp 2 (Plus (Cls not_rbrace)); Lit "}"%char].

(** Line 189: a name (group 1), white space, a type (group 2), an optional
    question mark (group 3), optional white space, and the rest of the line
    (group 4). *)
Definition field_pattern : regex :=
  seqs [Grp 1 (Plus word); Plus ws; Grp 2 (Plus word);
        Grp 3 (Opt (Lit "?"%char)); Star ws; Grp 4 (Star dot)].

(** Lines 192-215 for one line of a model body: the field it declares, or
    nothing when the line is skipped. *)
Definition prisma_field (line : text) : option Field :=
  let line := strip line in
  if match line with [] => true | _ => false end
     || startswith (str "@@") line || startswith (str "//") line
  then None
  else
    match re_match field_pattern line with
    | Some field_match =>
        let field_name := group 1 field_match in
        let field_type := group 2 field_match in
        let optional := text_eqb (group 3 field_match) (str "?") in
        let attributes := group 4 field_match in
        let field_obj :=
          mkField field_name field_type optional
                  (contains (str "@id") attributes) None
                  (contains (str "@unique") attributes) None in
        let field_obj :=
          if contains (str "@relation") attributes
          then set_foreign_key (Some field_type) field_obj else field_obj in
        Some field_obj
    | None => None
    end.

Fixpoint filter_map (A B : Type) (f : A -> option B) (l : list A) : list B :=
  match l with
  | [] => []
  | x :: l' =>
      match f x with
      | Some y => y :: filter_map f l'
      | None => filter_map f l'
      end
  end.

Definition prisma_lines (model_body : text) : list text :=
  split_on nl (strip model_body).

Definition prisma_fields (model_body : text) : list Field :=
  filter_map prisma_field (prisma_lines model_body).

Definition prisma_entity (m : Match) : Entity :=
  let model_name := group 1 m in
  let model_body := group 2 m in
  let entity := new_entity model_name (lower model_name) in
  set_fields (fields entity ++ prisma_fields model_body) entity.

Definition parse_prisma_text (content : text) : list Entity :=
  map prisma_entity (finditer model_pattern content).

(* ================================================================== *)
(** ** The file system

    A path is the tuple of its parts, as [Path.parts] gives it for a resolved
    path: the root part first.  A file whose content is [None] cannot be
    opened or decoded: [open] or [read] raises on it, as they do on a
    directory.  The children of a directory are listed in the order the
    directory scan yields them. *)

Definition path := list text.

#[local] Set Warnings "-register-all".

Inductive node : Type :=
| File (name : text) (content : option text)
| Dir (name : text) (children : list node).

Definition node_name (n : node) : text :=
  match n with
  | File name _ => name
  | Dir name _ => name
  end.

Definition is_dir (n : node) : bool :=
  match n with
  | Dir _ _ => true
  | File _ _ => false
  end.

Definition children_of (n : node) : list node :=
  match n with
  | Dir _ cs => cs
  | File _ _ => []
  end.

Definition find_child (name : text) (cs : list node) : option node :=
  find (fun n => text_eqb (node_name n) name) cs.

(** The node a relative path leads to, from a list of children. *)
Fixpoint walk (cs : list node) (rel : path) : option node :=
  match rel with
  | [] => None
  | [name] => find_child name cs
  | name :: rel' =>
      match find_child name cs with
      | Some (Dir _ cs') => walk cs' rel'
      | _ => None
      end
  end.

(** The file system is its root directory; a resolved path starts with the
    root part. *)
Definition lookup (fs : node) (p : path) : option node :=
  match p with
  | [] => None
  | [_] => Some fs
  | _ :: rel => walk (children_of fs) rel
  end.

Inductive exn : Type :=
| OpenError (p : path)
| WriteError.

Inductive result (A : Type) : Type :=
| Ok (a : A)
| Raised (e : exn).

Arguments Ok {A} a.

Arguments Raised {A} e.

Definition bind (A B : Type) (m : result A) (f : A -> result B) : result B :=
  match m with
  | Ok a => f a
  | Raised e => Raised e
  end.

Notation "x <- m ;; k" := (bind m (fun x => k))
  (at level 61, m at next level, right associativity).

(** [with open(file_path, 'r') as f: content = f.read()] *)
Definition read_text (fs : node) (file_path : path) : result text :=
  match lookup fs file_path with
  | Some (File _ (Some content)) => Ok content
  | _ => Raised (OpenError file_path)
  end.

Definition parse_django_models (fs : node) (file_path : path)
    : result (list Entity) :=
  content <- read_text fs file_path ;;
  Ok (parse_django_text content).

Definition parse_prisma_schema (fs : node) (file_path : path)
    : result (list Entity) :=
  content <- read_text fs file_path ;;
  Ok (parse_prisma_text content).

(* ================================================================== *)
(** ** The source locator ([find_schema_files], lines 55-102) *)

(** [Path.rglob(name)] for a pattern without wildcards, below the directory
    [here] whose children are [cs]: the child of that name if there is one,
    then the same in every sub-directory, depth first. *)
Fixpoint rglob_at (name : text) (here : path) (n : node) {struct n}
    : list path :=
  match n with
  | File _ _ => []
  | Dir _ cs =>
      (match find_child name cs with
       | Some _ => [here ++ [name]]
       | None => []
       end) ++
      (fix each (l : list node) : list path :=
         match l with
         | [] => []
         | c :: l' => rglob_at name (here ++ [node_name c]) c ++ each l'
         end) cs
  end.

(** [root.rglob(name)]; nothing when [root] does not lead to a directory. *)
Definition rglob (fs : node) (root : path) (name : text) : list path :=
  match lookup fs root with
  | Some n => rglob_at name root n
  | None => []
  end.

(** [str.endswith] *)
Definition endswith (suffix s : text) : bool :=
  startswith (rev suffix) (rev s).

(** [d.glob('*' + ext)]: the children of [d] whose name ends with [ext]. *)
Definition glob_ext (fs : node) (d : path) (ext : text) : list path :=
  match lookup fs d with
  | Some (Dir _ cs) =>
      map (fun c => d ++ [node_name c])
          (filter (fun c => endswith ext (node_name c)) cs)
  | _ => []
  end.

(** [name in p.parts] *)
Definition has_part (name : text) (p : path) : bool :=
  existsb (text_eqb name) p.

Definition path_exists (fs : node) (p : path) : bool :=
  match lookup fs p with
  | Some _ => true
  | None => false
  end.

Definition path_is_dir (fs : node) (p : path) : bool :=
  match lookup fs p with
  | Some n => is_dir n
  | None => false
  end.

(** The dictionary the locator returns: its keys in insertion order. *)
Definition file_map := list (text * list path).

(** [key in d] and [d[key]] *)
Fixpoint get (key : text) (d : file_map) : option (list path) :=
  match d with
  | [] => None
  | (k, v) :: d' => if text_eqb k key then Some v else get key d'
  end.

Definition django_models_files (fs : node) (root : path) : list path :=
  filter (fun models_file =>
            negb (has_part (str "migrations") models_file)
            && negb (has_part (str "venv") models_file))
         (rglob fs root (str "models.py")).

Definition prisma_schema_files (fs : node) (root : path) : list path :=
  rglob fs root (str "schema.prisma").

Definition rails_migrations_files (fs : node) (root : path) : list path :=
  let rails_migrations_dir := root ++ [str "db"; str "migrate"] in
  if path_exists fs rails_migrations_dir
  then glob_ext fs rails_migrations_dir (str ".rb")
  else [].

Definition knex_migrations_files (fs : node) (root : path) : list path :=
  flat_map (fun migrations_dir =>
              if path_is_dir fs migrations_dir
              then glob_ext fs migrations_dir (str ".js")
                   ++ glob_ext fs migrations_dir (str ".ts")
              else [])
           (rglob fs root (str "migrations")).

Definition sql_schema_files (fs : node) (root : path) : list path :=
  rglob fs root (str "schema.sql").

(** [root] is the resolved root directory, [Path(root_dir).resolve()]. *)
Definition find_schema_files (fs : node) (root : path) : file_map :=
  let schema_files :=
    [ (str "django_models", django_models_files fs root);
      (str "sqlalchemy_models", []);
      (str "prisma_schema", prisma_schema_files fs root);
      (str "rails_migrations", rails_migrations_files fs root);
      (str "knex_migrations", knex_migrations_files fs root);
      (str "sql_schema", sql_schema_files fs root) ] in
  filter (fun kv => match snd kv with [] => false | _ => true end)
         schema_files.

(* ================================================================== *)
(** ** Aggregation ([extract_schema], lines 222-266) *)

(** [for file in files: entities.extend(parse(file))]; an exception raised
    by [parse] leaves the loop and the function. *)
Fixpoint extend_all (parse : path -> result (list Entity))
    (files : list path) (entities : list Entity) : result (list Entity) :=
  match files with
  | [] => Ok entities
  | file :: files' =>
      parsed <- parse file ;;
      extend_all parse files' (entities ++ parsed)
  end.

(** Lines 254-260 for one field of one entity.  [if field.foreign_key] is
    Python's truth value: the target is set and is not the empty string. *)
Definition field_relationships (entity : Entity) (field : Field) : list Rel :=
  match foreign_key field with
  | Some (c :: t) =>
      [mkRel (e_name entity) (c :: t) (str "1:N") (f_name field)]
  | _ => []
  end.

(** Lines 251-260: entities in order, and the fields of each in order. *)
Definition derive_relationships (ents : list Entity) : list Rel :=
  flat_map (fun entity => flat_map (field_relationships entity) (fields entity))
           ents.

Definition extract_schema (fs : node) (root : path) : result SchemaReport :=
  let schema_files := find_schema_files fs root in
  let entities0 : list Entity := [] in
  let orm0 : option text := None in
  st1 <- match get (str "django_models") schema_files with
         | Some files =>
             es <- extend_all (parse_django_models fs) files entities0 ;;
             Ok (es, Some (str "Django ORM"))
         | None => Ok (entities0, orm0)
         end ;;
  st2 <- match get (str "prisma_schema") schema_files with
         | Some files =>
             es <- extend_all (parse_prisma_schema fs) files (fst st1) ;;
             Ok (es, Some (str "Prisma"))
         | None => Ok st1
         end ;;
  Ok (mkReport (fst st2) (derive_relationships (fst st2)) None (snd st2)).

(* ================================================================== *)
(** ** The command ([main], lines 315-343)

    [root] is the resolved directory named on the command line, or the
    working directory.  [writable] tells whether the output directory can be
    made and the two output files written; when it cannot, the write
    raises. *)

Inductive outcome : Type :=
| Returned (code : nat)
| Uncaught (e : exn).

(** [generate_markdown_report] and the JSON dump, lines 329-335. *)
Definition write_outputs (writable : bool) (report : SchemaReport)
    : result unit :=
  if writable then Ok tt else Raised WriteError.

Definition main (fs : node) (writable : bool) (root : path) : outcome :=
  match extract_schema fs root with
  | Raised e => Uncaught e
  | Ok report =>
      match entities report with
      | [] => Returned 1
      | _ :: _ =>
          match write_outputs writable report with
          | Ok _ => Returned 0
          | Raised e => Uncaught e
          end
      end
  end.

(* ================================================================== *)
(** ** The diagram renderer ([generate_erd.py], lines 17-78)

    The snapshot is the dictionary [json.load] returns.  The keys read with
    a subscript ([name], [type], [from], [to]) hold strings; a key read with
    [get] may be absent ([None] below) and, for the four field flags, holds
    a JSON scalar. *)

Inductive jv : Type :=
| JNull
| JBool (b : bool)
| JInt (z : Z)
| JStr (s : text).

(** Python's truth value of a loaded JSON scalar. *)
Definition py_bool (v : jv) : bool :=
  match v with
  | JNull => false
  | JBool b => b
  | JInt z => negb (Z.eqb z 0)
  | JStr s => match s with [] => false | _ => true end
  end.

(** [bool(d.get(key))] and [bool(d.get(key, True))] *)
Definition get_flag (v : option jv) : bool :=
  match v with
  | Some x => py_bool x
  | None => false
  end.

Definition get_flag_default_true (v : option jv) : bool :=
  match v with
  | Some x => py_bool x
  | None => true
  end.

Record field_dict : Type := mkFieldDict {
  fd_name : text;
  fd_type : text;
  fd_primary_key : option jv;
  fd_foreign_key : option jv;
  fd_unique : option jv;
  fd_nullable : option jv
}.

Record entity_dict : Type := mkEntityDict {
  ed_name : text;
  ed_fields : option (list field_dict)
}.

Record rel_dict : Type := mkRelDict {
  rd_from : text;
  rd_to : text;
  rd_type : option text;
  rd_field : option text
}.

Record schema_data : Type := mkSchemaData {
  sd_entities : option (list entity_dict);
  sd_relationships : option (list rel_dict)
}.

(** [d.get(key, [])] *)
Definition get_list (A : Type) (v : option (list A)) : list A :=
  match v with
  | Some l => l
  | None => []
  end.

(** Lines 42-51: the constraint labels, appended in this order. *)
Definition field_constraints (field : field_dict) : list text :=
  let constraints := [] in
  let constraints :=
    if get_flag (fd_primary_key field)
    then constraints ++ [str "PK"] else constraints in
  let constraints :=
    if get_flag (fd_foreign_key field)
    then constraints ++ [str "FK"] else constraints in
  let constraints :=
    if get_flag (fd_unique field)
    then constraints ++ [str "UK"] else constraints in
  let constraints :=
    if negb (get_flag_default_true (fd_nullable field))
    then constraints ++ [str "NOT NULL"] else constraints in
  constraints.

(** Lines 53-54. *)
Definition field_line (field : field_dict) : text :=
  let constraints := field_constraints field in
  let constraint_str :=
    match constraints with
    | [] => []
    | _ :: _ => str " " ++ [dquote] ++ join (str ", ") constraints ++ [dquote]
    end in
  str "        " ++ fd_type field ++ str " " ++ fd_name field ++ constraint_str.

(** Lines 34-56 for one entity: nothing when it has no field. *)
Definition entity_block (entity : entity_dict) : list text :=
  let fields := get_list (ed_fields entity) in
  match fields with
  | [] => []
  | _ :: _ =>
      [str "    " ++ ed_name entity ++ str " {"]
      ++ map field_line fields
      ++ [str "    }"]
  end.

(** Lines 66-73. *)
Definition mermaid_rel (rel_type : text) : text :=
  if text_eqb rel_type (str "1:1") then str "||--||"
  else if text_eqb rel_type (str "1:N") then str "||--o{"
  else if text_eqb rel_type (str "N:M") then str "}o--o{"
  else str "||--o{".

(** Lines 60-76. *)
Definition rel_line (rel : rel_dict) : text :=
  let rel_type := match rd_type rel with Some t => t | None => str "1:N" end in
  let field := match rd_field rel with Some t => t | None => [] end in
  let label :=
    match field with
    | [] => []
    | _ :: _ => str " : " ++ [dquote] ++ field ++ [dquote]
    end in
  str "    " ++ rd_from rel ++ str " " ++ mermaid_rel rel_type ++ str " "
  ++ rd_to rel ++ label.

(** The [lines] list of the renderer, before it is joined. *)
Definition erd_lines (data : schema_data) : list text :=
  [str "erDiagram"]
  ++ flat_map entity_block (get_list (sd_entities data))
  ++ map rel_line (get_list (sd_relationships data)).

Definition generate_mermaid_erd (data : schema_data) : text :=
  join [nl] (erd_lines data).

(** The snapshot of a report: [asdict], dumped to JSON and loaded again. *)
Definition opt_jstr (t : option text) : jv :=
  match t with
  | Some s => JStr s
  | None => JNull
  end.

Definition field_to_dict (f : Field) : field_dict :=
  mkFieldDict (f_name f) (f_type f) (Some (JBool (primary_key f)))
              (Some (opt_jstr (foreign_key f))) (Some (JBool (unique f)))
              (Some (JBool (nullable f))).

Definition entity_to_dict (e : Entity) : entity_dict :=
  mkEntityDict (e_name e) (Some (map field_to_dict (fields e))).

Definition rel_to_dict (r : Rel) : rel_dict :=
  mkRelDict (rel_from r) (rel_to r) (Some (rel_type r)) (Some (rel_field r)).

Definition snapshot (report : SchemaReport) : schema_data :=
  mkSchemaData (Some (map entity_to_dict (entities report)))
               (Some (map rel_to_dict (relationships report))).

(* ================================================================== *)
(** * Definitions used by the statements *)

(** ** Matching, as a relation *)

(** What a successful attempt has done: [matches r s g s' g'] when [r] reads
    a prefix of [s], leaves [s'] and turns the captures [g] into [g']. *)
Inductive matches : regex -> text -> groups -> text -> groups -> Prop :=
| M_Eps s g : matches Eps s g s g
| M_Lit c s g : matches (Lit c) (c :: s) g s g
| M_Cls p c s g : p c = true -> matches (Cls p) (c :: s) g s g
| M_Seq r1 r2 s g s1 g1 s2 g2 :
    matches r1 s g s1 g1 -> matches r2 s1 g1 s2 g2 ->
    matches (Seq r1 r2) s g s2 g2
| M_Star_stop r s g : matches (Star r) s g s g
| M_Star_more r s g s1 g1 s2 g2 :
    matches r s g s1 g1 -> length s1 < length s ->
    matches (Star r) s1 g1 s2 g2 ->
    matches (Star r) s g s2 g2
| M_Opt_some r s g s1 g1 :
    matches r s g s1 g1 -> matches (Opt r) s g s1 g1
| M_Opt_none r s g : matches (Opt r) s g s g
| M_Grp n r s g s1 g1 :
    matches r s g s1 g1 ->
    matches (Grp n r) s g s1 ((n, consumed s s1) :: g1).

Create HintDb regex.

#[local] Hint Constructors matches : regex.

Fixpoint groupless (r : regex) : bool :=
  match r with
  | Eps | Lit _ | Cls _ => true
  | Seq r1 r2 => groupless r1 && groupless r2
  | Star r1 | Opt r1 => groupless r1
  | Grp _ _ => false
  end.

(** [m] is what one attempt of [r] at offset [m_start m] of [s] yields. *)
Definition match_at (r : regex) (s : text) (m : Match) : Prop :=
  exists rest,
    match_here r (skipn (m_start m) s) = Some (m_groups m, rest)
    /\ m_text m = consumed (skipn (m_start m) s) rest.

Ltac inv_seq :=
  repeat match goal with
         | H : matches (Seq _ _) _ _ _ _ |- _ => inversion H; subst; clear H
         | H : matches (Grp _ _) _ _ _ _ |- _ => inversion H; subst; clear H
         end.

(** ** Extraction runs *)

(** The target of a field is absent or not empty. *)
Definition fk_set_or_absent (f : Field) : Prop :=
  foreign_key f <> Some [].

Definition fields_fk_ok (e : Entity) : Prop :=
  Forall fk_set_or_absent (fields e).

(** A parser that reads its file and then parses the text. *)
Definition parse_with (parse_text : text -> list Entity) (fs : node)
    (file_path : path) : result (list Entity) :=
  content <- read_text fs file_path ;;
  Ok (parse_text content).

(** What a file contributes when it can be read. *)
Definition entities_of_file (parse_text : text -> list Entity) (fs : node)
    (file_path : path) : list Entity :=
  match read_text fs file_path with
  | Ok content => parse_text content
  | Raised _ => []
  end.

(** [d[key]], or no file when the key is absent. *)
Definition files_of (key : text) (d : file_map) : list path :=
  match get key d with
  | Some l => l
  | None => []
  end.

(** The two loops of [extract_schema], one after the other. *)
Definition extract_entities (fs : node) (root : path) : result (list Entity) :=
  let schema_files := find_schema_files fs root in
  es <- extend_all (parse_with parse_django_text fs)
                   (files_of (str "django_models") schema_files) [] ;;
  extend_all (parse_with parse_prisma_text fs)
             (files_of (str "prisma_schema") schema_files) es.

(** ** Sample inputs *)

Definition proj : path := [str "/"; str "proj"].

Definition in_proj (cs : list node) : node :=
  Dir (str "/") [Dir (str "proj") cs].

(** A Django model whose field [user] is a [ForeignKey] to [User]. *)
Definition order_models_py : text := str
"class Order(models.Model):
    user = models.ForeignKey(User, on_delete=models.CASCADE)
".

(** The same entity in a Prisma schema. *)
Definition order_schema_prisma : text := str
"model Order {
  id Int @id
  user User @relation(fields: [userId], references: [id])
}".

Definition fs_order_django : node :=
  in_proj [File (str "models.py") (Some order_models_py)].

Definition fs_order_prisma : node :=
  in_proj [File (str "schema.prisma") (Some order_schema_prisma)].

(** A project with a Prisma schema inside [venv] and a [models.py] inside
    [node_modules]. *)
Definition fs_vendored : node :=
  in_proj [Dir (str "venv") [File (str "schema.prisma") (Some [])];
           Dir (str "node_modules")
             [Dir (str "pkg") [File (str "models.py") (Some [])]]].

(** The segments [analyze_dependencies.py] (line 105) treats as vendored. *)
Definition vendored_segments : list text :=
  [str "node_modules"; str "vendor"; str ".venv"; str "venv";
   str "__pycache__"].

Definition vendored (p : path) : bool :=
  existsb (fun seg => has_part seg p) vendored_segments.

(** A project whose only schema file is a [models.py] that cannot be
    read. *)
Definition fs_only_unreadable : node :=
  in_proj [File (str "models.py") None].

(** A [models.py] that cannot be read next to a readable Prisma schema. *)
Definition fs_unreadable : node :=
  in_proj [File (str "models.py") None;
           File (str "schema.prisma") (Some order_schema_prisma)].

(** ** Counting *)

(** [field.foreign_key is not None] *)
Definition has_foreign_key (f : Field) : bool :=
  match foreign_key f with
  | Some _ => true
  | None => false
  end.

(** The number of fields, over all entities, whose [foreign_key] is set. *)
Definition fk_field_count (es : list Entity) : nat :=
  length (filter has_foreign_key (flat_map fields es)).

(** The labels in the fixed order, each kept when its flag holds. *)
Definition annotation_labels (field : field_dict) : list text :=
  map fst
      (filter snd
         [ (str "PK", get_flag (fd_primary_key field));
           (str "FK", get_flag (fd_foreign_key field));
           (str "UK", get_flag (fd_unique field));
           (str "NOT NULL", negb (get_flag_default_true (fd_nullable field))) ]).

(** The snapshot of the scenario: [User] with [id] (integer, primary key)
    and [email] (string, unique, not nullable). *)
Definition user_id : field_dict :=
  mkFieldDict (str "id") (str "integer") (Some (JBool true)) (Some JNull)
              (Some (JBool false)) (Some (JBool true)).

Definition user_email : field_dict :=
  mkFieldDict (str "email") (str "string") (Some (JBool false)) (Some JNull)
              (Some (JBool true)) (Some (JBool false)).

Definition user_snapshot : schema_data :=
  mkSchemaData (Some [mkEntityDict (str "User") (Some [user_id; user_email])])
               (Some []).

(** Modelled from the spec: the repository has no reader of diagram markup;
    this one recovers, from the markup alone, the number of fields of every
    entity block, in order (the number of blocks is the length of the
    result).  A block opens at a line that starts with four spaces and ends
    with a space and an opening brace; it closes at the line made of four
    spaces and a closing brace; every line in between is one field.  A
    block that is never closed is no block. *)
Definition is_block_open (line : text) : bool :=
  startswith (str "    ") line && endswith (str " {") line.

Fixpoint count_blocks (lines : list text) (cur : option nat) : list nat :=
  match lines with
  | [] => []
  | l :: rest =>
      match cur with
      | None =>
          if is_block_open l then count_blocks rest (Some 0)
          else count_blocks rest None
      | Some n =>
          if text_eqb l (str "    }") then n :: count_blocks rest None
          else count_blocks rest (Some (S n))
      end
  end.

Definition reparse_counts (markup : text) : list nat :=
  count_blocks (split_on nl markup) None.

(** The field count of every entity of a snapshot, in order. *)
Definition snapshot_counts (data : schema_data) : list nat :=
  map (fun e => length (get_list (ed_fields e))) (get_list (sd_entities data)).

Definition lacks (c : ascii) (s : text) : bool :=
  forallb (fun x => negb (Ascii.eqb x c)) s.

Definition one_line (s : text) : bool := lacks nl s.

Definition opt_one_line (s : option text) : bool :=
  match s with
  | Some t => one_line t
  | None => true
  end.

(** No string of the snapshot holds a line feed. *)
Definition field_ok (f : field_dict) : bool :=
  one_line (fd_type f) && one_line (fd_name f).

Definition entity_ok (e : entity_dict) : bool :=
  one_line (ed_name e) && forallb field_ok (get_list (ed_fields e)).

Definition rel_ok (r : rel_dict) : bool :=
  one_line (rd_from r) && one_line (rd_to r) && opt_one_line (rd_field r).

Definition snapshot_ok (data : schema_data) : bool :=
  forallb entity_ok (get_list (sd_entities data))
  && forallb rel_ok (get_list (sd_relationships data)).

(** A snapshot with one entity whose name holds two line feeds. *)
Definition broken_name_snapshot : schema_data :=
  mkSchemaData
    (Some [mkEntityDict (str "A {" ++ [nl] ++ str "    }" ++ [nl] ++ str "    B")
             (Some [mkFieldDict (str "x") (str "int") None None None None])])
    (Some []).

(** A snapshot with one entity that has no field. *)
Definition empty_entity_snapshot : schema_data :=
  mkSchemaData (Some [mkEntityDict (str "Empty") (Some [])]) (Some []).

Definition nonzero (n : nat) : bool := negb (n =? 0).

Fixpoint numbered (A : Type) (k : nat) (l : list A) : list (nat * A) :=
  match l with
  | [] => []
  | x :: l' => (k, x) :: numbered (S k) l'
  end.

(** Where the fields of a class body are declared: for every field of
    [django_fields], in the same order, the row of the pattern table that
    recognised it and the offset of its declaration in the body. *)
Definition sites_of (pats : list (regex * text)) (k : nat) (body : text)
    : list (nat * nat) :=
  flat_map (fun ip => map (fun m => (fst ip, m_start m))
                          (finditer (fst (snd ip)) body))
           (numbered k pats).

Definition django_sites (class_body : text) : list (nat * nat) :=
  sites_of field_patterns 0 class_body.

(** Row first, then offset. *)
Definition site_lt (a b : nat * nat) : Prop :=
  fst a < fst b \/ (fst a = fst b /\ snd a < snd b).

(** The piece [piece] stands at offset [off] of [content]. *)
Definition occurs_at (content : text) (off : nat) (piece : text) : Prop :=
  firstn (length piece) (skipn off content) = piece.

(** The lines of a text that starts at offset [off], each with the offset
    it starts at: a line and its line feed take [length line + 1]
    characters. *)
Fixpoint line_sites (off : nat) (lines : list text) : list (nat * text) :=
  match lines with
  | [] => []
  | l :: lines' => (off, l) :: line_sites (off + length l + 1) lines'
  end.

Definition declares (site : nat * text) : bool :=
  match prisma_field (snd site) with
  | Some _ => true
  | None => false
  end.

(** A Django model that declares [id] before [name]. *)
Definition item_models_py : text := str
"class Item(models.Model):
    id = models.IntegerField(primary_key=True)
    name = models.CharField(max_length=10)
".

(** A Prisma model that declares [id] twice. *)
Definition twice_schema_prisma : text := str
"model Item {
  id Int @id
  id String
}".

(* ================================================================== *)
(** * The rest of the two scripts, and what the statements about them use *)

(** ** The text a pattern reads *)

(** [lang r q]: the pattern [r] can read exactly the text [q]. *)
Inductive lang : regex -> text -> Prop :=
| L_Eps : lang Eps []
| L_Lit c : lang (Lit c) [c]
| L_Cls p c : p c = true -> lang (Cls p) [c]
| L_Seq r1 r2 a b : lang r1 a -> lang r2 b -> lang (Seq r1 r2) (a ++ b)
| L_Star_stop r : lang (Star r) []
| L_Star_more r a b : lang r a -> lang (Star r) b -> lang (Star r) (a ++ b)
| L_Opt_some r a : lang r a -> lang (Opt r) a
| L_Opt_none r : lang (Opt r) []
| L_Grp n r a : lang r a -> lang (Grp n r) a.

#[local] Hint Constructors lang : regex.

(** A non-empty run of word characters: what [\w+] captures. *)
Definition wordy (t : text) : Prop :=
  t <> [] /\ forallb is_word t = true.

Ltac inv_lang :=
  repeat match goal with
         | H : lang (Seq _ _) _ |- _ => inversion H; subst; clear H
         | H : lang (Grp _ _) _ |- _ => inversion H; subst; clear H
         end.

(** The constructor names of the Django pattern table. *)
Definition django_ctors : list string :=
  ["CharField"; "TextField"; "IntegerField"; "BooleanField";
   "DateTimeField"; "DateField"; "ForeignKey"]%string.

(** The type names of the Django pattern table. *)
Definition django_types : list text := map snd field_patterns.

(** An entity comes from one of the two extractors. *)
Definition from_django (e : Entity) : Prop :=
  exists content, In e (parse_django_text content).

Definition from_prisma (e : Entity) : Prop :=
  exists content, In e (parse_prisma_text content).

Definition non_empty (A : Type) (l : list A) : bool :=
  match l with
  | [] => false
  | _ :: _ => true
  end.

(** A project kept below a directory named [venv], with one Django model
    file. *)
Definition venv_proj : path := [str "/"; str "venv"; str "proj"].

Definition fs_below_venv : node :=
  Dir (str "/")
      [Dir (str "venv")
           [Dir (str "proj") [File (str "models.py") (Some order_models_py)]]].

(** A project with a migrations directory and a Rails migration. *)
Definition fs_migrations : node :=
  in_proj [Dir (str "app")
               [Dir (str "migrations")
                    [File (str "001_init.js") None;
                     File (str "notes.txt") None]];
           Dir (str "db")
               [Dir (str "migrate") [File (str "001_users.rb") None]]].

(** A project with both a Django model file and a Prisma schema. *)
Definition fs_both : node :=
  in_proj [File (str "models.py") (Some order_models_py);
           File (str "schema.prisma") (Some order_schema_prisma)].

(** A class body in the usual Django layout: [Meta] on one line and its
    [db_table] on the next. *)
Definition meta_body : text := str
"    name = models.CharField(max_length=10)
    class Meta:
        db_table = 'shop_orders'
".

(** The number of diagram lines one entity takes: none without a field,
    else one per field and the two lines around them. *)
Definition block_size (entity : entity_dict) : nat :=
  match length (get_list (ed_fields entity)) with
  | 0 => 0
  | S n => S n + 2
  end.

(* ================================================================== *)
(** ** Saving the diagram ([generate_erd.py], lines 81-140)

    Paths are the strings of the command line.  [posixpath.dirname] is
    embedded as it is written; the state of the disk is what the section
    variables say. *)

Definition is_slash (c : ascii) : bool := Ascii.eqb c "/"%char.

(** [l] from its first slash on; nothing when it has none. *)
Fixpoint from_slash (l : text) : text :=
  match l with
  | [] => []
  | c :: l' => if is_slash c then l else from_slash l'
  end.

Fixpoint lstrip_slash (l : text) : text :=
  match l with
  | c :: l' => if is_slash c then lstrip_slash l' else l
  | [] => []
  end.

(** [os.path.dirname]: [head = p[:p.rfind('/') + 1]], and the trailing
    slashes of [head] are dropped unless [head] is made of slashes only. *)
Definition dirname (p : text) : text :=
  let head := rev (from_slash (rev p)) in
  if non_empty head && negb (forallb is_slash head)
  then rev (lstrip_slash (rev head))
  else head.

Inductive erd_exn : Type :=
| LoadError (json_file : text)
| MakedirsError (directory : text)
| SaveError (output_file : text).

(** What a run of the renderer command leaves: an exit code and the files
    written, or an exception nobody catches. *)
Inductive erd_outcome : Type :=
| ErdReturned (code : nat) (written : list (text * text))
| ErdUncaught (e : erd_exn).

Definition default_erd_output : text :=
  str ".tmp/project-init/database-erd.mmd".

Section RenderCommand.

(** [Path(p).exists()] *)
Variable path_on_disk : text -> bool.
(** [load_schema_from_json]: the loaded snapshot, or [None] when [open]
    or [json.load] raises or the loaded value is not of the shape
    [schema_data] describes (the renderer then raises on the key it
    misses). *)
Variable load_schema_from_json : text -> option schema_data.
(** Whether [os.makedirs(d, exist_ok=True)] succeeds for a directory
    name [d] that is not empty; for the empty name it always raises. *)
Variable can_make : text -> bool.
(** Whether the file can be opened for writing and written. *)
Variable can_write : text -> bool.

(** [save_erd], lines 95-108. *)
Definition save_erd (erd_content output_file : text)
    : erd_exn + list (text * text) :=
  let directory := dirname output_file in
  match directory with
  | [] => inl (MakedirsError directory)
  | _ :: _ =>
      if can_make directory
      then if can_write output_file
           then inr [(output_file, erd_content)]
           else inl (SaveError output_file)
      else inl (MakedirsError directory)
  end.

(** [main], lines 111-140; [argv] is [sys.argv]. *)
Definition erd_main (argv : list text) : erd_outcome :=
  if length argv <? 2 then ErdReturned 1 []
  else
    let json_file := nth 1 argv [] in
    let output_file :=
      if 2 <? length argv then nth 2 argv [] else default_erd_output in
    if negb (path_on_disk json_file) then ErdReturned 1 []
    else
      match load_schema_from_json json_file with
      | None => ErdUncaught (LoadError json_file)
      | Some schema_data =>
          let erd_content := generate_mermaid_erd schema_data in
          match save_erd erd_content output_file with
          | inl e => ErdUncaught e
          | inr written => ErdReturned 0 written
          end
      end.

End RenderCommand.

(* ================================================================== *)
(** ** The package-file locator ([analyze_dependencies.py], lines 76-110) *)

Definition search_patterns : list (text * text) :=
  [ (str "package.json", str "npm");
    (str "requirements.txt", str "pip");
    (str "Pipfile", str "pipenv");
    (str "pyproject.toml", str "poetry/pip");
    (str "Gemfile", str "bundler");
    (str "go.mod", str "go");
    (str "Cargo.toml", str "cargo");
    (str "composer.json", str "composer") ].

(** [d[key] = value]: the value of an existing key is replaced, a new key
    comes last. *)
Fixpoint dict_set (key : text) (value : path) (d : list (text * path))
    : list (text * path) :=
  match d with
  | [] => [(key, value)]
  | (k, v) :: d' =>
      if text_eqb k key then (k, value) :: d'
      else (k, v) :: dict_set key value d'
  end.

(** Lines 102-106: the matches of one pattern that lie in no vendored
    directory. *)
Definition package_matches (fs : node) (root : path) (pattern : text)
    : list path :=
  filter (fun m => negb (vendored m)) (rglob fs root pattern).

(** The loop of lines 101-108, from the dictionary built so far. *)
Definition find_package_files_from (fs : node) (root : path)
    (patterns : list (text * text)) (package_files : list (text * path))
    : list (text * path) :=
  fold_left
    (fun package_files pm =>
       match package_matches fs root (fst pm) with
       | [] => package_files
       | first :: _ => dict_set (snd pm) first package_files
       end)
    patterns package_files.

Definition find_package_files (fs : node) (root : path)
    : list (text * path) :=
  find_package_files_from fs root search_patterns [].

(** A project with one manifest of its own and one inside
    [node_modules]. *)
Definition fs_packages : node :=
  in_proj [Dir (str "node_modules")
               [Dir (str "left-pad") [File (str "package.json") None]];
           Dir (str "web") [File (str "package.json") None]].

(** A project kept below a directory named [vendor]. *)
Definition vendor_proj : path := [str "/"; str "vendor"; str "proj"].

Definition fs_below_vendor : node :=
  Dir (str "/")
      [Dir (str "vendor")
           [Dir (str "proj") [File (str "package.json") None]]].

(** A Python file with a class that is no Django model. *)
Definition plain_class_py : text := str
"class Order(Base):
    name = Column(String)
".

(* ================================================================== *)
(** * Properties *)

(** ** The matcher *)

Lemma rmatch_sound (A : Type) (r : regex) :
  forall (s : text) (g : groups) (k : text -> groups -> option A) (a : A),
    rmatch r s g k = Some a ->
    exists s' g', matches r s g s' g' /\ k s' g' = Some a.
Proof.
  induction r as [ | c | p | r1 IH1 r2 IH2 | r IH | r IH | n r IH ];
    intros s g k a H; simpl in H.
  - eauto with regex.
  - destruct s as [ | x s']; [discriminate | ].
    destruct (Ascii.eqb x c) eqn:E; [ | discriminate].
    apply Ascii.eqb_eq in E; subst x. eauto with regex.
  - destruct s as [ | x s']; [discriminate | ].
    destruct (p x) eqn:E; [ | discriminate]. eauto with regex.
  - apply IH1 in H. destruct H as (s1 & g1 & M1 & H).
    apply IH2 in H. destruct H as (s2 & g2 & M2 & H).
    eauto with regex.
  - revert H. generalize (length s) at 1. intros fuel. revert s g.
    induction fuel as [ | fuel IHf]; intros s g H.
    + eauto with regex.
    + match type of H with
      | match ?e with _ => _ end = _ => destruct e as [b | ] eqn:E
      end.
      * injection H as ->.
        apply IH in E. destruct E as (s1 & g1 & M1 & E).
        destruct (length s1 <? length s) eqn:L; [ | discriminate].
        apply Nat.ltb_lt in L.
        apply IHf in E. destruct E as (s2 & g2 & M2 & E).
        eauto with regex.
      * eauto with regex.
  - destruct (rmatch r s g k) as [b | ] eqn:E.
    + injection H as ->. apply IH in E.
      destruct E as (s1 & g1 & M1 & E). eauto with regex.
    + eauto with regex.
  - apply IH in H. destruct H as (s1 & g1 & M1 & H). eauto with regex.
Qed.

(** A match reads a prefix: what is left is a suffix of the input. *)
Lemma matches_suffix r s g s' g' :
  matches r s g s' g' -> exists p, s = p ++ s'.
Proof.
  induction 1;
    repeat match goal with
           | H : exists _, _ |- _ => destruct H as [? ->]
           end.
  - now exists [].
  - now exists [c].
  - now exists [c].
  - eexists. now rewrite app_assoc.
  - now exists [].
  - eexists. now rewrite app_assoc.
  - now eexists.
  - now exists [].
  - now eexists.
Qed.

Lemma consumed_app (p s' : text) : consumed (p ++ s') s' = p.
Proof.
  unfold consumed. rewrite length_app.
  replace (length p + length s' - length s') with (length p + 0) by lia.
  rewrite firstn_app_2. simpl. apply app_nil_r.
Qed.

Lemma skipn_consumed (p s' : text) :
  skipn (length (p ++ s') - length s') (p ++ s') = s'.
Proof.
  rewrite length_app.
  replace (length p + length s' - length s') with (length p) by lia.
  rewrite skipn_app, skipn_all, Nat.sub_diag. reflexivity.
Qed.

Lemma matches_groupless r s g s' g' :
  matches r s g s' g' -> groupless r = true -> g' = g.
Proof.
  induction 1; simpl; intros G; try reflexivity;
    try (apply andb_prop in G; destruct G as [G1 G2]);
    try discriminate.
  - rewrite IHmatches2, IHmatches1; auto.
  - rewrite IHmatches2, IHmatches1; auto.
  - auto.
Qed.

(** One or more characters of a class: the captures are untouched and at
    least one character is read. *)
Lemma matches_Plus_Cls p s g s' g' :
  matches (Plus (Cls p)) s g s' g' ->
  g' = g /\ exists c q, p c = true /\ s = c :: q ++ s'.
Proof.
  intros M. split.
  - apply (matches_groupless M). reflexivity.
  - unfold Plus in M. inversion M; subst.
    match goal with
    | H : matches (Cls _) _ _ _ _ |- _ => inversion H; subst
    end.
    match goal with
    | H : matches (Star _) _ _ _ _ |- _ =>
        destruct (matches_suffix H) as [q ->]
    end.
    eauto.
Qed.

Lemma match_here_sound r s g s' :
  match_here r s = Some (g, s') -> matches r s [] s' g.
Proof.
  unfold match_here. intros H.
  apply rmatch_sound in H. destruct H as (s1 & g1 & M & E).
  now inversion E; subst.
Qed.

Lemma match_here_suffix r s g s' :
  match_here r s = Some (g, s') -> exists p, s = p ++ s'.
Proof.
  intros H. apply match_here_sound in H. eapply matches_suffix; eauto.
Qed.

(** ** [finditer]: every item is a match at its offset, and the offsets
    grow *)

Lemma skipn_S_tl (full : text) (pos : nat) (c : ascii) (t : text) :
  skipn pos full = c :: t -> skipn (S pos) full = t.
Proof.
  revert full. induction pos as [ | pos IH]; intros full H.
  - simpl in H. subst full. reflexivity.
  - destruct full as [ | x full]; [discriminate | ].
    simpl in H. apply IH in H. exact H.
Qed.

Lemma skipn_add (full : text) (pos n : nat) :
  skipn (pos + n) full = skipn n (skipn pos full).
Proof.
  revert full. induction pos as [ | pos IH]; intros full; simpl.
  - reflexivity.
  - destruct full as [ | x full].
    + now rewrite skipn_nil.
    + apply IH.
Qed.

Lemma finditer_from_spec r full :
  forall fuel pos s,
    skipn pos full = s ->
    Forall (match_at r full) (finditer_from fuel r pos s)
    /\ Forall (fun m => pos <= m_start m) (finditer_from fuel r pos s)
    /\ StronglySorted lt (map m_start (finditer_from fuel r pos s)).
Proof.
  induction fuel as [ | fuel IH]; intros pos s Hs; simpl.
  - repeat split; constructor.
  - assert (Hskip : forall c t, s = c :: t ->
              Forall (match_at r full) (finditer_from fuel r (S pos) t)
              /\ Forall (fun m => pos < m_start m)
                        (finditer_from fuel r (S pos) t)
              /\ StronglySorted lt
                   (map m_start (finditer_from fuel r (S pos) t))).
    { intros c t ->. apply skipn_S_tl in Hs.
      destruct (IH (S pos) t Hs) as (F1 & F2 & F3).
      repeat split; auto. }
    assert (Hweak : forall (l : list Match),
              Forall (fun m => pos < m_start m) l ->
              Forall (fun m => pos <= m_start m) l).
    { intros l. apply Forall_impl. intros; lia. }
    destruct (match_here r s) as [[g s'] | ] eqn:E.
    + assert (Hhead : match_at r full (mkMatch pos (firstn (length s - length s') s) g)).
      { exists s'. simpl. rewrite Hs. split; [exact E | reflexivity]. }
      assert (Htail :
        let rest := if length s - length s' =? 0
                    then match s with
                         | [] => []
                         | _ :: t => finditer_from fuel r (S pos) t
                         end
                    else finditer_from fuel r (pos + (length s - length s')) s' in
        Forall (match_at r full) rest
        /\ Forall (fun m => pos < m_start m) rest
        /\ StronglySorted lt (map m_start rest)).
      { simpl. destruct (length s - length s' =? 0) eqn:Z.
        - destruct s as [ | c t].
          + repeat split; constructor.
          + eapply Hskip; reflexivity.
        - apply Nat.eqb_neq in Z.
          destruct (match_here_suffix _ _ E) as [p Ep].
          assert (Hs' : skipn (pos + (length s - length s')) full = s').
          { rewrite skipn_add, Hs. rewrite Ep. apply skipn_consumed. }
          destruct (IH _ _ Hs') as (F1 & F2 & F3).
          repeat split; auto.
          eapply Forall_impl; [ | exact F2]. simpl. intros; lia. }
      simpl in Htail. destruct Htail as (T1 & T2 & T3).
      repeat split.
      * constructor; assumption.
      * constructor; [simpl; lia | auto].
      * simpl. constructor; [assumption | ].
        apply Forall_map. exact T2.
    + destruct s as [ | c t].
      * repeat split; constructor.
      * destruct (Hskip c t eq_refl) as (F1 & F2 & F3).
        repeat split; auto.
Qed.

Lemma finditer_spec r s :
  Forall (match_at r s) (finditer r s)
  /\ StronglySorted lt (map m_start (finditer r s)).
Proof.
  unfold finditer.
  destruct (finditer_from_spec r s (S (length s)) 0 eq_refl) as (F1 & _ & F3).
  split; assumption.
Qed.

(** ** What the extractors put into [foreign_key] *)

Lemma django_field_foreign_key field_type m :
  foreign_key (django_field field_type m) = None.
Proof.
  unfold django_field.
  destruct (contains (str "primary_key=True") (group 0 m));
    destruct (contains (str "null=False") (group 0 m)); reflexivity.
Qed.

Lemma django_fields_foreign_key body :
  Forall (fun f => foreign_key f = None) (django_fields body).
Proof.
  unfold django_fields. apply Forall_flat_map.
  apply Forall_forall. intros pt _.
  apply Forall_map. apply Forall_forall. intros m _.
  apply django_field_foreign_key.
Qed.

(** The type a Prisma declaration line captures is never empty. *)
Lemma field_pattern_type_nonempty line m :
  re_match field_pattern line = Some m -> group 2 m <> [].
Proof.
  unfold re_match. destruct (match_here field_pattern line) as [[g s'] | ] eqn:E;
    [ | discriminate].
  intros H. injection H as <-.
  apply match_here_sound in E.
  unfold field_pattern in E. cbn [seqs] in E. inv_seq.
  repeat match goal with
         | H : matches (Plus _) _ _ _ _ |- _ =>
             apply matches_Plus_Cls in H;
             destruct H as (? & ? & ? & ? & ?); subst
         | H : matches (Star _) _ _ _ _ |- _ =>
             apply matches_groupless in H; [subst | reflexivity]
         | H : matches (Opt _) _ _ _ _ |- _ =>
             apply matches_groupless in H; [subst | reflexivity]
         end.
  cbn [group m_groups lookup_group Nat.eqb].
  match goal with
  | |- consumed (?c :: ?q ++ ?s') ?s' <> [] =>
      change (c :: q ++ s') with ((c :: q) ++ s'); rewrite consumed_app
  end.
  discriminate.
Qed.

Lemma prisma_field_foreign_key line f :
  prisma_field line = Some f -> fk_set_or_absent f.
Proof.
  unfold prisma_field, fk_set_or_absent.
  destruct (_ || _ || _); [discriminate | ].
  destruct (re_match field_pattern (strip line)) as [m | ] eqn:E;
    [ | discriminate].
  apply field_pattern_type_nonempty in E.
  destruct (contains (str "@relation") (group 4 m));
    intros H; injection H as <-; cbn [foreign_key set_foreign_key];
    [intros Hc; injection Hc as Hc; exact (E Hc) | discriminate].
Qed.

Lemma filter_map_Forall (A B : Type) (f : A -> option B) (P : B -> Prop) l :
  (forall x y, f x = Some y -> P y) -> Forall P (filter_map f l).
Proof.
  intros Hf. induction l as [ | x l IH]; simpl.
  - constructor.
  - destruct (f x) eqn:E; [constructor; eauto | assumption].
Qed.

Lemma parse_django_text_fk content :
  Forall fields_fk_ok (parse_django_text content).
Proof.
  unfold parse_django_text. apply Forall_map, Forall_forall. intros m _.
  unfold fields_fk_ok, django_entity. simpl.
  eapply Forall_impl; [ | apply django_fields_foreign_key].
  unfold fk_set_or_absent. intros f ->. discriminate.
Qed.

Lemma parse_prisma_text_fk content :
  Forall fields_fk_ok (parse_prisma_text content).
Proof.
  unfold parse_prisma_text. apply Forall_map, Forall_forall. intros m _.
  unfold fields_fk_ok, prisma_entity. simpl.
  apply filter_map_Forall. apply prisma_field_foreign_key.
Qed.

(** ** The shape of an extraction run *)

Lemma read_text_raises fs p e :
  read_text fs p = Raised e -> e = OpenError p.
Proof.
  unfold read_text.
  destruct (lookup fs p) as [[? [?|] | ? ?] | ]; congruence.
Qed.

(** The loop either reads every file and appends what each declares, or
    stops at the first file that cannot be read. *)
Lemma extend_all_cases parse_text fs files :
  forall acc,
    match extend_all (parse_with parse_text fs) files acc with
    | Ok res =>
        res = acc ++ flat_map (entities_of_file parse_text fs) files
        /\ Forall (fun p => exists c, read_text fs p = Ok c) files
    | Raised e =>
        exists p, In p files /\ e = OpenError p /\ read_text fs p = Raised e
    end.
Proof.
  induction files as [ | p files IH]; intros acc; simpl.
  - split; [now rewrite app_nil_r | constructor].
  - unfold parse_with at 1, entities_of_file at 1.
    destruct (read_text fs p) as [c | e] eqn:E; simpl.
    + specialize (IH (acc ++ parse_text c)).
      destruct (extend_all _ files _) as [res | e].
      * destruct IH as [-> F]. split; [now rewrite app_assoc | ].
        constructor; eauto.
      * destruct IH as (q & Hq & He & Hr). eauto.
    + exists p. pose proof (read_text_raises _ _ E). subst e. auto.
Qed.

Lemma extend_all_Forall (P : Entity -> Prop) parse_text fs files acc res :
  (forall c, Forall P (parse_text c)) ->
  Forall P acc ->
  extend_all (parse_with parse_text fs) files acc = Ok res ->
  Forall P res.
Proof.
  intros Hp Ha H.
  pose proof (extend_all_cases parse_text fs files acc) as C.
  rewrite H in C. destruct C as [-> _].
  apply Forall_app. split; [assumption | ].
  apply Forall_flat_map, Forall_forall. intros p _.
  unfold entities_of_file. destruct (read_text fs p); [apply Hp | constructor].
Qed.

Lemma extract_schema_entities fs root :
  match extract_schema fs root with
  | Ok report =>
      extract_entities fs root = Ok (entities report)
      /\ relationships report = derive_relationships (entities report)
  | Raised e => extract_entities fs root = Raised e
  end.
Proof.
  unfold extract_schema, extract_entities, files_of.
  change (parse_django_models fs) with (parse_with parse_django_text fs).
  change (parse_prisma_schema fs) with (parse_with parse_prisma_text fs).
  destruct (get (str "django_models") (find_schema_files fs root)) as [dj | ];
    destruct (get (str "prisma_schema") (find_schema_files fs root)) as [pr | ];
    cbn [bind fst snd extend_all].
  - destruct (extend_all (parse_with parse_django_text fs) dj []) as [es | e];
      cbn [bind fst snd]; [ | reflexivity].
    destruct (extend_all (parse_with parse_prisma_text fs) pr es) as [es' | e];
      cbn [bind fst snd entities relationships]; auto.
  - destruct (extend_all (parse_with parse_django_text fs) dj []) as [es | e];
      cbn [bind fst snd entities relationships]; auto.
  - destruct (extend_all (parse_with parse_prisma_text fs) pr []) as [es' | e];
      cbn [bind fst snd entities relationships]; auto.
  - cbn [entities relationships]. auto.
Qed.

Lemma extract_entities_fk fs root es :
  extract_entities fs root = Ok es -> Forall fields_fk_ok es.
Proof.
  unfold extract_entities. intros H.
  destruct (extend_all (parse_with parse_django_text fs) _ []) as [es0 | e] eqn:E;
    simpl in H; [ | discriminate].
  eapply extend_all_Forall; [apply parse_prisma_text_fk | | exact H].
  eapply extend_all_Forall; [apply parse_django_text_fk | constructor | exact E].
Qed.

(* ================================================================== *)
(** ** The source locator *)

(** What the Django branch does filter: no path under [django_models] has a
    part named [venv] or [migrations]. *)
Lemma django_models_files_filtered fs root p :
  In p (django_models_files fs root) ->
  has_part (str "venv") p = false /\ has_part (str "migrations") p = false.
Proof.
  unfold django_models_files. intros H.
  apply filter_In in H. destruct H as [_ H].
  apply andb_prop in H. destruct H as [H1 H2].
  apply negb_true_iff in H1, H2. auto.
Qed.

(** C1, at the failing input: the locator returns a Prisma schema that lies
    inside [venv] and a Django [models.py] that lies inside [node_modules];
    both paths contain a vendored segment. *)
Theorem find_schema_files_returns_vendored :
  find_schema_files fs_vendored proj =
    [ (str "django_models",
       [proj ++ [str "node_modules"; str "pkg"; str "models.py"]]);
      (str "prisma_schema", [proj ++ [str "venv"; str "schema.prisma"]]) ]
  /\ vendored (proj ++ [str "node_modules"; str "pkg"; str "models.py"]) = true
  /\ vendored (proj ++ [str "venv"; str "schema.prisma"]) = true
  /\ has_part (str "venv") (proj ++ [str "venv"; str "schema.prisma"]) = true.
Proof.
  repeat split; vm_compute; reflexivity.
Qed.

(* ================================================================== *)
(** ** Aggregation *)

Lemma field_relationships_length e fs :
  Forall fk_set_or_absent fs ->
  length (flat_map (field_relationships e) fs)
  = length (filter has_foreign_key fs).
Proof.
  induction 1 as [ | f fs Hf _ IH]; [reflexivity | ].
  cbn [flat_map filter]. rewrite length_app, IH.
  unfold field_relationships, has_foreign_key, fk_set_or_absent in *.
  destruct (foreign_key f) as [[ | c t] | ]; cbn [length Nat.add];
    first [reflexivity | now elim Hf].
Qed.

Lemma derive_relationships_length es :
  Forall fields_fk_ok es ->
  length (derive_relationships es) = fk_field_count es.
Proof.
  unfold fk_field_count.
  induction 1 as [ | e es He _ IH]; [reflexivity | ].
  cbn [derive_relationships flat_map].
  rewrite length_app, filter_app, length_app.
  rewrite field_relationships_length by exact He.
  unfold derive_relationships in IH. now rewrite IH.
Qed.

Lemma extract_schema_ok fs root report :
  extract_schema fs root = Ok report ->
  extract_entities fs root = Ok (entities report)
  /\ relationships report = derive_relationships (entities report).
Proof.
  intros H. pose proof (extract_schema_entities fs root) as C.
  now rewrite H in C.
Qed.

(** C5: in every report [extract_schema] returns, there are exactly as many
    relationships as there are fields, over all entities, whose
    [foreign_key] is set. *)
Theorem relationship_count fs root report :
  extract_schema fs root = Ok report ->
  length (relationships report) = fk_field_count (entities report).
Proof.
  intros H. apply extract_schema_ok in H. destruct H as [He ->].
  apply derive_relationships_length.
  eapply extract_entities_fk; eassumption.
Qed.

Lemma relationship_count_witness :
  exists report,
    extract_schema fs_order_prisma proj = Ok report
    /\ length (relationships report) = fk_field_count (entities report).
Proof.
  eexists. split; [vm_compute; reflexivity | ].
  apply (relationship_count fs_order_prisma proj).
  vm_compute. reflexivity.
Defined.

Lemma derive_relationships_type es :
  Forall (fun r => rel_type r = str "1:N") (derive_relationships es).
Proof.
  unfold derive_relationships.
  apply Forall_flat_map, Forall_forall. intros e _.
  apply Forall_flat_map, Forall_forall. intros f _.
  unfold field_relationships.
  destruct (foreign_key f) as [[ | c t] | ]; repeat constructor.
Qed.

(** C10: every relationship of every report [extract_schema] returns has
    the type 1:N; none is tagged 1:1 or N:M. *)
Theorem relationships_all_one_to_many fs root report :
  extract_schema fs root = Ok report ->
  Forall (fun r => rel_type r = str "1:N"
                   /\ rel_type r <> str "1:1" /\ rel_type r <> str "N:M")
         (relationships report).
Proof.
  intros H. apply extract_schema_ok in H. destruct H as [_ ->].
  eapply Forall_impl; [ | apply derive_relationships_type].
  intros r ->. repeat split; discriminate.
Qed.

Lemma relationships_all_one_to_many_witness :
  exists report,
    extract_schema fs_order_prisma proj = Ok report
    /\ Forall (fun r => rel_type r = str "1:N"
                        /\ rel_type r <> str "1:1" /\ rel_type r <> str "N:M")
              (relationships report).
Proof.
  eexists. split; [vm_compute; reflexivity | ].
  apply (relationships_all_one_to_many fs_order_prisma proj).
  vm_compute. reflexivity.
Defined.

(** C2, at the failing input: a Django entity [Order] whose field [user] is
    declared as a [ForeignKey] to [User] is extracted with that field typed
    [foreign_key] but with no [foreign_key] target, and aggregation derives
    no relationship from it.  The same entity written in Prisma yields the
    one relationship from Order to User, 1:N, through [user]. *)
Theorem django_foreign_key_yields_no_relationship :
  extract_schema fs_order_django proj =
    Ok (mkReport
          [mkEntity (str "Order") (str "orders")
                    [mkField (str "user") (str "foreign_key") true false None
                             false None] [] []]
          [] None (Some (str "Django ORM")))
  /\ (exists report,
        extract_schema fs_order_prisma proj = Ok report
        /\ relationships report
           = [mkRel (str "Order") (str "User") (str "1:N") (str "user")]).
Proof.
  split.
  - vm_compute. reflexivity.
  - eexists. split; vm_compute; reflexivity.
Qed.

(* ================================================================== *)
(** ** Default storage names *)

(** C3, at the failing input: the Prisma extractor resolves the model
    [Order], which declares no storage name of its own, to [order]: it
    lower-cases the name and appends nothing.  The Django extractor
    resolves the class [Order] to [orders]. *)
Theorem prisma_table_name_lacks_suffix :
  map (fun e => (e_name e, table_name e))
      (parse_prisma_text order_schema_prisma)
    = [(str "Order", str "order")]
  /\ map (fun e => (e_name e, table_name e))
         (parse_django_text order_models_py)
     = [(str "Order", str "orders")].
Proof.
  split; vm_compute; reflexivity.
Qed.

(* ================================================================== *)
(** ** Files that cannot be read *)

(** C8 as stated fails: with an unreadable [models.py] next to a readable
    Prisma schema that declares an entity, the run raises the open error and
    returns no report, hence none of the entities of the readable file. *)
Lemma unreadable_file_aborts_run :
  extract_schema fs_unreadable proj
    = Raised (OpenError (proj ++ [str "models.py"]))
  /\ entities_of_file parse_prisma_text fs_unreadable
       (proj ++ [str "schema.prisma"]) <> []
  /\ ~ exists report, extract_schema fs_unreadable proj = Ok report.
Proof.
  assert (E : extract_schema fs_unreadable proj
              = Raised (OpenError (proj ++ [str "models.py"])))
    by (vm_compute; reflexivity).
  split; [ | split].
  - exact E.
  - vm_compute. discriminate.
  - intros [report H]. rewrite E in H. discriminate.
Qed.

(** C8, amended: an extraction run returns a report exactly when every
    Django and Prisma candidate file can be read, and its entities are then
    those of the Django files followed by those of the Prisma files, each
    list in the locator's order; when a candidate file fails to open or
    decode, the run raises that file's error and returns nothing. *)
Theorem extract_schema_all_or_nothing fs root :
  let django := files_of (str "django_models") (find_schema_files fs root) in
  let prisma := files_of (str "prisma_schema") (find_schema_files fs root) in
  match extract_schema fs root with
  | Ok report =>
      Forall (fun p => exists c, read_text fs p = Ok c) (django ++ prisma)
      /\ entities report
         = flat_map (entities_of_file parse_django_text fs) django
           ++ flat_map (entities_of_file parse_prisma_text fs) prisma
  | Raised e =>
      exists p, In p (django ++ prisma)
                /\ e = OpenError p /\ read_text fs p = Raised e
  end.
Proof.
  intros django prisma.
  pose proof (extract_schema_entities fs root) as S.
  assert (C : match extract_entities fs root with
              | Ok es =>
                  Forall (fun p => exists c, read_text fs p = Ok c)
                         (django ++ prisma)
                  /\ es = flat_map (entities_of_file parse_django_text fs) django
                          ++ flat_map (entities_of_file parse_prisma_text fs) prisma
              | Raised e =>
                  exists p, In p (django ++ prisma)
                            /\ e = OpenError p /\ read_text fs p = Raised e
              end).
  { unfold extract_entities. fold django. fold prisma.
    pose proof (extend_all_cases parse_django_text fs django []) as C1.
    destruct (extend_all (parse_with parse_django_text fs) django [])
      as [es | e]; cbn [bind].
    - destruct C1 as [-> F1].
      pose proof (extend_all_cases parse_prisma_text fs prisma
                    ([] ++ flat_map (entities_of_file parse_django_text fs) django))
        as C2.
      destruct (extend_all (parse_with parse_prisma_text fs) prisma _)
        as [es' | e].
      + destruct C2 as [-> F2]. split; [ | reflexivity].
        apply Forall_app. auto.
      + destruct C2 as (p & Hp & He & Hr). exists p.
        rewrite in_app_iff. auto.
    - destruct C1 as (p & Hp & He & Hr). exists p.
      rewrite in_app_iff. auto. }
  destruct (extract_schema fs root) as [report | e].
  - destruct S as [S _]. rewrite S in C. exact C.
  - rewrite S in C. exact C.
Qed.

(* ================================================================== *)
(** ** The exit code *)

Lemma get_find_schema_files_none fs root :
  django_models_files fs root = [] ->
  prisma_schema_files fs root = [] ->
  get (str "django_models") (find_schema_files fs root) = None
  /\ get (str "prisma_schema") (find_schema_files fs root) = None.
Proof.
  intros Hd Hp. unfold find_schema_files. rewrite Hd, Hp.
  cbn [filter snd].
  destruct (rails_migrations_files fs root);
    destruct (knex_migrations_files fs root);
    destruct (sql_schema_files fs root);
    split; vm_compute; reflexivity.
Qed.

Lemma extract_schema_no_files fs root :
  django_models_files fs root = [] ->
  prisma_schema_files fs root = [] ->
  extract_schema fs root = Ok (mkReport [] [] None None).
Proof.
  intros Hd Hp.
  destruct (get_find_schema_files_none fs root Hd Hp) as [Gd Gp].
  unfold extract_schema. rewrite Gd, Gp. reflexivity.
Qed.

(** C9 as stated fails: in a project whose only schema file cannot be
    read no entity is found, and [main] neither returns a non-zero code nor
    reports the condition: the error of the read leaves it unhandled.  And
    with one entity extracted [main] returns no 0 when its outputs cannot be
    written. *)
Lemma main_raises_on_unreadable_file :
  main fs_only_unreadable true proj
    = Uncaught (OpenError (proj ++ [str "models.py"]))
  /\ (forall code, main fs_only_unreadable true proj <> Returned code)
  /\ main fs_order_prisma false proj = Uncaught WriteError.
Proof.
  assert (E : main fs_only_unreadable true proj
              = Uncaught (OpenError (proj ++ [str "models.py"])))
    by (vm_compute; reflexivity).
  split; [exact E | ]. split.
  - intros code H. rewrite E in H. discriminate.
  - vm_compute. reflexivity.
Qed.

(** C9, amended: [main] returns 0 exactly when extraction returns a report
    with at least one entity and the outputs can be written; it returns 1
    exactly when extraction returns a report without any entity, and then
    it writes nothing and raises nothing; it returns no other code.  In
    every other run an exception leaves [main] unhandled: the error of a
    file that cannot be read, or the error of the write.  When the locator
    finds no Django and no Prisma file, extraction returns the empty report
    and [main] returns 1. *)
Theorem main_exit_code fs writable root :
  (main fs writable root = Returned 0 <->
   exists report,
     extract_schema fs root = Ok report
     /\ entities report <> [] /\ writable = true)
  /\ (main fs writable root = Returned 1 <->
      exists report,
        extract_schema fs root = Ok report /\ entities report = [])
  /\ (forall code, main fs writable root = Returned code ->
        code = 0 \/ code = 1)
  /\ (forall e, main fs writable root = Uncaught e <->
        extract_schema fs root = Raised e
        \/ exists report,
             extract_schema fs root = Ok report
             /\ entities report <> [] /\ writable = false
             /\ e = WriteError)
  /\ (django_models_files fs root = [] ->
      prisma_schema_files fs root = [] ->
      extract_schema fs root = Ok (mkReport [] [] None None)
      /\ main fs writable root = Returned 1).
Proof.
  assert (M : main fs writable root =
              match extract_schema fs root with
              | Raised e => Uncaught e
              | Ok report =>
                  match entities report with
                  | [] => Returned 1
                  | _ :: _ =>
                      if writable then Returned 0 else Uncaught WriteError
                  end
              end).
  { unfold main, write_outputs.
    destruct (extract_schema fs root) as [report | e]; [ | reflexivity].
    destruct (entities report); [reflexivity | ].
    destruct writable; reflexivity. }
  split; [ | split; [ | split; [ | split]]].
  - rewrite M. split.
    + destruct (extract_schema fs root) as [report | e]; [ | discriminate].
      destruct (entities report) as [ | x xs] eqn:En; [discriminate | ].
      destruct writable; [ | discriminate].
      intros _. exists report. rewrite En. repeat split. discriminate.
    + intros (report & -> & Hne & ->).
      destruct (entities report); [congruence | reflexivity].
  - rewrite M. split.
    + destruct (extract_schema fs root) as [report | e]; [ | discriminate].
      destruct (entities report) as [ | x xs] eqn:En.
      * intros _. exists report. auto.
      * destruct writable; discriminate.
    + intros (report & -> & ->). reflexivity.
  - intros code. rewrite M.
    destruct (extract_schema fs root) as [report | e]; [ | discriminate].
    destruct (entities report).
    + intros H. injection H as <-. auto.
    + destruct writable; [ | discriminate].
      intros H. injection H as <-. auto.
  - intros e. rewrite M. split.
    + destruct (extract_schema fs root) as [report | e0].
      * destruct (entities report) as [ | x xs] eqn:En; [discriminate | ].
        destruct writable; [discriminate | ].
        intros H. injection H as <-. right. exists report.
        rewrite En. repeat split. discriminate.
      * intros H. injection H as <-. now left.
    + intros [-> | (report & -> & Hne & -> & ->)]; [reflexivity | ].
      destruct (entities report); [congruence | reflexivity].
  - intros Hd Hp. pose proof (extract_schema_no_files fs root Hd Hp) as E.
    split; [exact E | ]. rewrite M, E. reflexivity.
Qed.

Lemma main_exit_code_witness :
  main fs_order_prisma true proj = Returned 0
  /\ main (in_proj []) true proj = Returned 1.
Proof.
  split.
  - apply (proj1 (main_exit_code fs_order_prisma true proj)).
    eexists. split; [vm_compute; reflexivity | ].
    split; [discriminate | reflexivity].
  - apply (proj2 (proj2 (proj2 (proj2 (main_exit_code (in_proj []) true proj)))));
      vm_compute; reflexivity.
Defined.

(* ================================================================== *)
(** ** The field lines of the diagram *)

Lemma field_constraints_labels field :
  field_constraints field = annotation_labels field.
Proof.
  unfold field_constraints, annotation_labels. cbn [filter snd map fst].
  destruct (get_flag (fd_primary_key field));
    destruct (get_flag (fd_foreign_key field));
    destruct (get_flag (fd_unique field));
    destruct (negb (get_flag_default_true (fd_nullable field)));
    reflexivity.
Qed.

Lemma field_line_in_erd_lines data entity field :
  In entity (get_list (sd_entities data)) ->
  In field (get_list (ed_fields entity)) ->
  In (field_line field) (erd_lines data).
Proof.
  intros He Hf. unfold erd_lines.
  apply in_or_app. right. apply in_or_app. left.
  apply in_flat_map. exists entity. split; [assumption | ].
  unfold entity_block.
  destruct (get_list (ed_fields entity)) as [ | f0 fs] eqn:E;
    [contradiction | ].
  apply in_or_app. right. apply in_or_app. left.
  apply in_map. exact Hf.
Qed.

(** C6: every field of every entity of a snapshot is rendered as one line
    of the diagram: the indentation, the type, a space, the name, and then
    either nothing, when none of the four flags holds, or a space and,
    between double quotes, the labels PK, FK, UK, NOT NULL that hold, in
    this order, joined by a comma and a space. *)
Theorem field_line_format data entity field :
  In entity (get_list (sd_entities data)) ->
  In field (get_list (ed_fields entity)) ->
  In (field_line field) (erd_lines data)
  /\ (annotation_labels field = [] ->
      field_line field
      = str "        " ++ fd_type field ++ str " " ++ fd_name field)
  /\ (annotation_labels field <> [] ->
      field_line field
      = str "        " ++ fd_type field ++ str " " ++ fd_name field
        ++ str " " ++ [dquote]
        ++ join (str ", ") (annotation_labels field) ++ [dquote]).
Proof.
  intros He Hf. split; [eapply field_line_in_erd_lines; eassumption | ].
  unfold field_line. rewrite field_constraints_labels.
  destruct (annotation_labels field) as [ | l ls].
  - split; [intros _; now rewrite app_nil_r | congruence].
  - split; [discriminate | reflexivity].
Qed.

Lemma field_line_format_witness :
  In (str "        integer id " ++ [dquote] ++ str "PK" ++ [dquote])
     (erd_lines user_snapshot)
  /\ field_line user_email
     = str "        string email " ++ [dquote] ++ str "UK, NOT NULL"
       ++ [dquote].
Proof.
  split.
  - apply (proj1 (field_line_format user_snapshot
                    (mkEntityDict (str "User") (Some [user_id; user_email]))
                    user_id
                    (or_introl eq_refl) (or_introl eq_refl))).
  - rewrite (proj2 (proj2 (field_line_format user_snapshot
                    (mkEntityDict (str "User") (Some [user_id; user_email]))
                    user_email
                    (or_introl eq_refl) (or_intror (or_introl eq_refl))))).
    + vm_compute. reflexivity.
    + vm_compute. discriminate.
Defined.

(* ================================================================== *)
(** ** Counting entities and fields back from the markup *)

(** *** Splitting a joined list of lines *)

Lemma split_on_one_line (l : text) :
  one_line l = true -> split_on nl l = [l].
Proof.
  induction l as [ | c l IH]; simpl; intros H; [reflexivity | ].
  apply andb_prop in H. destruct H as [Hc Hl].
  apply negb_true_iff in Hc. rewrite Hc, (IH Hl). reflexivity.
Qed.

Lemma split_on_line_app (l rest : text) :
  one_line l = true ->
  split_on nl (l ++ nl :: rest) = l :: split_on nl rest.
Proof.
  induction l as [ | c l IH]; simpl; intros H.
  - reflexivity.
  - apply andb_prop in H. destruct H as [Hc Hl].
    apply negb_true_iff in Hc. rewrite Hc, (IH Hl). reflexivity.
Qed.

Lemma split_join_lines (lines : list text) :
  lines <> [] ->
  forallb one_line lines = true ->
  split_on nl (join [nl] lines) = lines.
Proof.
  induction lines as [ | l lines IH]; intros Hne H; [congruence | ].
  simpl in H. apply andb_prop in H. destruct H as [Hl Hls].
  destruct lines as [ | l' lines].
  - simpl. now apply split_on_one_line.
  - change (join [nl] (l :: l' :: lines))
      with (l ++ nl :: join [nl] (l' :: lines)).
    rewrite split_on_line_app by assumption.
    rewrite IH; [reflexivity | discriminate | assumption].
Qed.

Lemma lacks_app c a b : lacks c (a ++ b) = lacks c a && lacks c b.
Proof. apply forallb_app. Qed.

(** *** Every rendered line is one line *)

Lemma field_line_one_line f :
  field_ok f = true -> one_line (field_line f) = true.
Proof.
  unfold field_ok, field_line, one_line. intros H.
  apply andb_prop in H. destruct H as [Ht Hn].
  rewrite field_constraints_labels.
  repeat rewrite lacks_app. rewrite Ht, Hn.
  unfold annotation_labels. cbn [filter snd map fst].
  destruct (get_flag (fd_primary_key f));
    destruct (get_flag (fd_foreign_key f));
    destruct (get_flag (fd_unique f));
    destruct (negb (get_flag_default_true (fd_nullable f)));
    vm_compute; reflexivity.
Qed.

Lemma mermaid_rel_cases t :
  mermaid_rel t = str "||--||" \/ mermaid_rel t = str "||--o{"
  \/ mermaid_rel t = str "}o--o{".
Proof.
  unfold mermaid_rel.
  destruct (text_eqb t (str "1:1")); [auto | ].
  destruct (text_eqb t (str "1:N")); [auto | ].
  destruct (text_eqb t (str "N:M")); auto.
Qed.

Lemma rel_line_one_line r :
  rel_ok r = true -> one_line (rel_line r) = true.
Proof.
  unfold rel_ok, rel_line, one_line. intros H.
  apply andb_prop in H. destruct H as [H Hf].
  apply andb_prop in H. destruct H as [Hfrom Hto].
  repeat rewrite lacks_app. rewrite Hfrom, Hto.
  assert (Hm : lacks nl (mermaid_rel
                 match rd_type r with Some t => t | None => str "1:N" end)
               = true).
  { destruct (mermaid_rel_cases
                match rd_type r with Some t => t | None => str "1:N" end)
      as [-> | [-> | ->]]; reflexivity. }
  rewrite Hm.
  destruct (rd_field r) as [fld | ]; cbn [opt_one_line] in Hf;
    [ | reflexivity].
  unfold one_line in Hf.
  destruct fld as [ | c t]; [reflexivity | ].
  repeat rewrite lacks_app. rewrite Hf. reflexivity.
Qed.

Lemma entity_block_one_line e :
  entity_ok e = true -> forallb one_line (entity_block e) = true.
Proof.
  unfold entity_ok, entity_block. intros H.
  apply andb_prop in H. destruct H as [Hn Hfs].
  destruct (get_list (ed_fields e)) as [ | f fs]; [reflexivity | ].
  rewrite forallb_app. apply andb_true_intro. split.
  - cbn [forallb]. unfold one_line at 1. repeat rewrite lacks_app.
    unfold one_line in Hn. rewrite Hn. reflexivity.
  - rewrite forallb_app. apply andb_true_intro. split; [ | reflexivity].
    apply forallb_forall. intros l Hl. apply in_map_iff in Hl.
    destruct Hl as (f' & <- & Hf').
    apply field_line_one_line.
    rewrite forallb_forall in Hfs. auto.
Qed.

Lemma erd_lines_one_line data :
  snapshot_ok data = true -> forallb one_line (erd_lines data) = true.
Proof.
  unfold snapshot_ok, erd_lines. intros H.
  apply andb_prop in H. destruct H as [He Hr].
  rewrite forallb_app. apply andb_true_intro. split; [reflexivity | ].
  rewrite forallb_app. apply andb_true_intro. split.
  - induction (get_list (sd_entities data)) as [ | e es IH];
      [reflexivity | ].
    simpl in He. apply andb_prop in He. destruct He as [He1 He2].
    cbn [flat_map]. rewrite forallb_app.
    rewrite (entity_block_one_line _ He1). now apply IH.
  - apply forallb_forall. intros l Hl. apply in_map_iff in Hl.
    destruct Hl as (r & <- & Hr').
    apply rel_line_one_line. rewrite forallb_forall in Hr. auto.
Qed.

(** *** Reading the blocks back *)

Lemma field_line_not_close f : text_eqb (field_line f) (str "    }") = false.
Proof. reflexivity. Qed.

Lemma text_eqb_length (a b : text) :
  text_eqb a b = true -> length a = length b.
Proof.
  revert b. induction a as [ | x a IH]; intros [ | y b] H;
    try discriminate; [reflexivity | ].
  simpl in H. apply andb_prop in H. destruct H as [_ H].
  simpl. f_equal. now apply IH.
Qed.

Lemma startswith_own_prefix (a b : text) : startswith a (a ++ b) = true.
Proof.
  induction a as [ | x a IH]; simpl; [reflexivity | ].
  now rewrite Ascii.eqb_refl.
Qed.

Lemma endswith_own_suffix (a b : text) : endswith b (a ++ b) = true.
Proof.
  unfold endswith. rewrite rev_app_distr. apply startswith_own_prefix.
Qed.

(** The line that opens an entity's block is read as one, whatever the
    name. *)
Lemma entity_open_is_block_open (name : text) :
  is_block_open (str "    " ++ name ++ str " {") = true.
Proof.
  unfold is_block_open. rewrite startswith_own_prefix.
  rewrite app_assoc, endswith_own_suffix. reflexivity.
Qed.

(** A relationship line is longer than the line that closes a block. *)
Lemma rel_line_not_close r : text_eqb (rel_line r) (str "    }") = false.
Proof.
  destruct (text_eqb (rel_line r) (str "    }")) eqn:E; [ | reflexivity].
  apply text_eqb_length in E. exfalso. revert E.
  unfold rel_line. repeat rewrite length_app.
  match goal with
  | |- context [mermaid_rel ?t] =>
      destruct (mermaid_rel_cases t) as [-> | [-> | ->]]
  end; simpl; lia.
Qed.

Lemma count_blocks_fields (fs : list field_dict) (rest : list text) :
  forall n,
    count_blocks (map field_line fs ++ str "    }" :: rest) (Some n)
    = (n + length fs) :: count_blocks rest None.
Proof.
  induction fs as [ | f fs IH]; intros n.
  - simpl. now rewrite Nat.add_0_r.
  - cbn [map app count_blocks]. rewrite field_line_not_close.
    rewrite IH. simpl. f_equal. lia.
Qed.

Lemma count_blocks_entity (e : entity_dict) (rest : list text) :
  count_blocks (entity_block e ++ rest) None
  = filter nonzero [length (get_list (ed_fields e))]
    ++ count_blocks rest None.
Proof.
  unfold entity_block.
  destruct (get_list (ed_fields e)) as [ | f fs]; [reflexivity | ].
  rewrite <- app_assoc. cbn [app count_blocks].
  rewrite entity_open_is_block_open.
  rewrite <- app_assoc.
  change ([str "    }"] ++ rest) with (str "    }" :: rest).
  rewrite (count_blocks_fields (f :: fs) rest 0). reflexivity.
Qed.

(** The relationship lines hold no block: none of them closes one. *)
Lemma count_blocks_rels (rels : list rel_dict) :
  forall cur, count_blocks (map rel_line rels) cur = [].
Proof.
  induction rels as [ | r rels IH]; intros cur; [reflexivity | ].
  cbn [map count_blocks]. destruct cur as [n | ].
  - rewrite rel_line_not_close. apply IH.
  - destruct (is_block_open (rel_line r)); apply IH.
Qed.

Lemma count_blocks_entities (es : list entity_dict) (rest : list text) :
  count_blocks (flat_map entity_block es ++ rest) None
  = filter nonzero (map (fun e => length (get_list (ed_fields e))) es)
    ++ count_blocks rest None.
Proof.
  induction es as [ | e es IH]; [reflexivity | ].
  cbn [flat_map map]. rewrite <- app_assoc.
  rewrite count_blocks_entity, IH.
  rewrite app_assoc. f_equal.
  cbn [filter]. destruct (nonzero _); reflexivity.
Qed.

Lemma count_blocks_erd_lines data :
  count_blocks (erd_lines data) None
  = filter nonzero (snapshot_counts data).
Proof.
  unfold erd_lines, snapshot_counts.
  change ([str "erDiagram"] ++ ?x) with (str "erDiagram" :: x).
  cbn [app count_blocks].
  change (is_block_open (str "erDiagram")) with false. cbv iota.
  rewrite count_blocks_entities, count_blocks_rels.
  apply app_nil_r.
Qed.

(** C7 as stated fails: an entity without a field has no block in the
    markup, so the counts read back from the markup of a snapshot with one
    such entity are empty, while the snapshot has one entity with zero
    fields.  And a line feed inside a name breaks the lines of the markup:
    the snapshot with the one entity of one field whose name holds two
    line feeds reads back as two blocks. *)
Lemma empty_entity_not_recovered :
  generate_mermaid_erd empty_entity_snapshot = str "erDiagram"
  /\ snapshot_counts empty_entity_snapshot = [0]
  /\ reparse_counts (generate_mermaid_erd empty_entity_snapshot) = []
  /\ reparse_counts (generate_mermaid_erd empty_entity_snapshot)
     <> snapshot_counts empty_entity_snapshot
  /\ snapshot_counts broken_name_snapshot = [1]
  /\ reparse_counts (generate_mermaid_erd broken_name_snapshot) = [0; 1].
Proof.
  split; [reflexivity | ]. split; [reflexivity | ].
  split; [reflexivity | ]. split; [vm_compute; discriminate | ].
  split; vm_compute; reflexivity.
Qed.

(** C7, amended: for every snapshot, the lines the renderer builds read
    back as one block for every entity that has at least one field, in
    order, each with the field count of its entity; an entity without a
    field is not in the markup.  For every snapshot whose strings hold no
    line feed the markup itself reads back so, and when moreover every
    entity has a field the counts read back are the counts of the
    snapshot. *)
Theorem render_then_reparse_counts data :
  count_blocks (erd_lines data) None = filter nonzero (snapshot_counts data)
  /\ (snapshot_ok data = true ->
      reparse_counts (generate_mermaid_erd data)
      = filter nonzero (snapshot_counts data)
      /\ (forallb nonzero (snapshot_counts data) = true ->
          reparse_counts (generate_mermaid_erd data) = snapshot_counts data)).
Proof.
  split; [apply count_blocks_erd_lines | ].
  intros H.
  assert (E : reparse_counts (generate_mermaid_erd data)
              = filter nonzero (snapshot_counts data)).
  { unfold reparse_counts, generate_mermaid_erd.
    rewrite split_join_lines.
    - apply count_blocks_erd_lines.
    - unfold erd_lines. cbn [app]. discriminate.
    - now apply erd_lines_one_line. }
  split; [exact E | ].
  rewrite E. clear E H.
  induction (snapshot_counts data) as [ | n ns IH]; intros Hnz;
    [reflexivity | ].
  simpl in Hnz. apply andb_prop in Hnz. destruct Hnz as [Hn Hns].
  simpl. rewrite Hn. f_equal. now apply IH.
Qed.

Lemma render_then_reparse_counts_witness :
  reparse_counts (generate_mermaid_erd user_snapshot) = [2]
  /\ snapshot_counts user_snapshot = [2].
Proof.
  split; [ | reflexivity].
  rewrite (proj1 (proj2 (render_then_reparse_counts user_snapshot) eq_refl)).
  reflexivity.
Defined.

(* ================================================================== *)
(** ** The order of the fields *)

Lemma StronglySorted_app (A : Type) (R : A -> A -> Prop) (a b : list A) :
  StronglySorted R a -> StronglySorted R b ->
  (forall x y, In x a -> In y b -> R x y) ->
  StronglySorted R (a ++ b).
Proof.
  induction 1 as [ | x a Sa IH Fx]; intros Sb Hab; simpl.
  - exact Sb.
  - constructor.
    + apply IH; [exact Sb | ]. intros; apply Hab; simpl; auto.
    + apply Forall_app. split; [exact Fx | ].
      apply Forall_forall. intros y Hy. apply Hab; simpl; auto.
Qed.

Lemma StronglySorted_map_S (l : list nat) :
  StronglySorted lt l -> StronglySorted lt (map S l).
Proof.
  induction 1 as [ | x l Sl IH Fx]; simpl; constructor.
  - exact IH.
  - apply Forall_map. eapply Forall_impl; [ | exact Fx].
    simpl. intros; lia.
Qed.

(** The items [filter_map] keeps come from strictly increasing positions
    of the list, and no position that yields an item is left out. *)
Lemma filter_map_positions (A B : Type) (f : A -> option B) (l : list A) :
  exists idxs,
    StronglySorted lt idxs
    /\ Forall2 (fun i y => exists x, nth_error l i = Some x /\ f x = Some y)
               idxs (filter_map f l)
    /\ (forall i x y, nth_error l i = Some x -> f x = Some y -> In i idxs).
Proof.
  induction l as [ | x l (idxs & Hs & Hf & Hall)]; simpl.
  - exists []. split; [constructor | ]. split; [constructor | ].
    intros [ | i] x y H; discriminate.
  - assert (Hshift :
      Forall2 (fun i y => exists x0, nth_error (x :: l) i = Some x0
                                     /\ f x0 = Some y)
              (map S idxs) (filter_map f l)).
    { clear Hs Hall. induction Hf; simpl; constructor; auto. }
    assert (Hsucc : forall i x0 y, nth_error (x :: l) (S i) = Some x0 ->
                      f x0 = Some y -> In (S i) (map S idxs)).
    { intros i x0 y Hn Hy. apply in_map. eapply Hall; eassumption. }
    destruct (f x) as [y | ] eqn:E.
    + exists (0 :: map S idxs). split; [ | split].
      * constructor; [now apply StronglySorted_map_S | ].
        apply Forall_map, Forall_forall. intros; lia.
      * constructor; [exists x; auto | exact Hshift].
      * intros [ | i] x0 y0 Hn Hy; [now left | right; eauto].
    + exists (map S idxs). split; [ | split].
      * now apply StronglySorted_map_S.
      * exact Hshift.
      * intros [ | i] x0 y0 Hn Hy; [ | eauto].
        simpl in Hn. injection Hn as <-. congruence.
Qed.

Lemma sites_of_spec (body : text) (pats : list (regex * text)) :
  forall k,
    Forall2 (fun s f =>
               exists pat ty m,
                 In (fst s, (pat, ty)) (numbered k pats)
                 /\ match_at pat body m
                 /\ m_start m = snd s
                 /\ f = django_field ty m)
            (sites_of pats k body)
            (flat_map (fun pt => map (django_field (snd pt))
                                     (finditer (fst pt) body)) pats)
    /\ Forall (fun s => k <= fst s) (sites_of pats k body)
    /\ StronglySorted site_lt (sites_of pats k body).
Proof.
  induction pats as [ | [pat ty] pats IH]; intros k.
  - repeat split; constructor.
  - destruct (IH (S k)) as (F2 & Fk & SS).
    destruct (finditer_spec pat body) as [Hm Hs].
    unfold sites_of. cbn [numbered flat_map fst snd].
    fold (sites_of pats (S k) body).
    split; [ | split].
    + apply Forall2_app.
      * clear Hs. induction Hm as [ | m ms Hm0 _ IHm]; simpl; constructor.
        -- exists pat, ty, m. simpl. auto.
        -- exact IHm.
      * eapply Forall2_impl; [ | exact F2].
        intros s f (pat' & ty' & m & Hin & Hrest).
        exists pat', ty', m. split; [right; exact Hin | exact Hrest].
    + apply Forall_app. split.
      * apply Forall_map, Forall_forall. intros; simpl; lia.
      * eapply Forall_impl; [ | exact Fk]. simpl. intros; lia.
    + apply StronglySorted_app.
      * clear Hm. induction (finditer pat body) as [ | m ms IHm];
          simpl; [constructor | ].
        simpl in Hs. inversion Hs as [ | ? ? Hs' Hlt]; subst.
        constructor; [now apply IHm | ].
        rewrite Forall_map. rewrite Forall_map in Hlt.
        eapply Forall_impl; [ | exact Hlt].
        intros m' Hm'. right. simpl. auto.
      * exact SS.
      * intros x y Hx Hy. apply in_map_iff in Hx.
        destruct Hx as (m & <- & _).
        rewrite Forall_forall in Fk. apply Fk in Hy.
        left. simpl. lia.
Qed.

(** *** Where the lines of a model body stand in the file *)

Lemma split_on_nonempty (s : text) : split_on nl s <> [].
Proof.
  destruct s as [ | c s]; simpl; [discriminate | ].
  destruct (Ascii.eqb c nl); [discriminate | ].
  destruct (split_on nl s); discriminate.
Qed.

Lemma join_cons (l l' : text) (ls : list text) :
  join [nl] (l :: l' :: ls) = l ++ nl :: join [nl] (l' :: ls).
Proof. reflexivity. Qed.

(** Joining the lines of a text with line feeds gives the text back. *)
Lemma join_split (s : text) : join [nl] (split_on nl s) = s.
Proof.
  induction s as [ | c s IH]; [reflexivity | ].
  cbn [split_on].
  destruct (split_on nl s) as [ | l ls] eqn:S;
    [now apply split_on_nonempty in S | ].
  destruct (Ascii.eqb c nl) eqn:E.
  - apply Ascii.eqb_eq in E. subst c.
    rewrite join_cons, IH. reflexivity.
  - destruct ls as [ | l' ls].
    + cbn [join] in *. now rewrite IH.
    + rewrite join_cons in *. cbn [app]. now rewrite IH.
Qed.

Lemma occurs_at_middle (pre piece post : text) :
  occurs_at (pre ++ piece ++ post) (length pre) piece.
Proof.
  unfold occurs_at. rewrite skipn_app, skipn_all, Nat.sub_diag. simpl.
  rewrite firstn_app, firstn_all, Nat.sub_diag. simpl. apply app_nil_r.
Qed.

Lemma line_sites_occur (lines : list text) :
  forall pre post,
    Forall (fun site =>
              occurs_at (pre ++ join [nl] lines ++ post) (fst site) (snd site))
           (line_sites (length pre) lines).
Proof.
  induction lines as [ | l lines IH]; intros pre post; [constructor | ].
  destruct lines as [ | l' lines].
  - simpl. constructor; [ | constructor]. apply occurs_at_middle.
  - cbn [line_sites]. constructor.
    + cbn [fst snd]. rewrite join_cons, <- app_assoc.
      apply occurs_at_middle.
    + specialize (IH (pre ++ l ++ [nl]) post).
      replace (length (pre ++ l ++ [nl])) with (length pre + length l + 1)
        in IH by (repeat rewrite length_app; simpl; lia).
      replace ((pre ++ l ++ [nl]) ++ join [nl] (l' :: lines) ++ post)
        with (pre ++ join [nl] (l :: l' :: lines) ++ post) in IH
        by (rewrite join_cons; repeat rewrite <- app_assoc; reflexivity).
      exact IH.
Qed.

Lemma line_sites_sorted (lines : list text) :
  forall off,
    Forall (fun site => off <= fst site) (line_sites off lines)
    /\ StronglySorted lt (map fst (line_sites off lines)).
Proof.
  induction lines as [ | l lines IH]; intros off; simpl.
  - split; constructor.
  - destruct (IH (off + length l + 1)) as [F S].
    split.
    + constructor; [simpl; lia | ].
      eapply Forall_impl; [ | exact F]. simpl. intros; lia.
    + constructor; [exact S | ].
      rewrite Forall_map. eapply Forall_impl; [ | exact F].
      simpl. intros; lia.
Qed.

Lemma filter_sites_fields (lines : list text) :
  forall off,
    map (fun site => prisma_field (snd site))
        (filter declares (line_sites off lines))
    = map Some (filter_map prisma_field lines).
Proof.
  induction lines as [ | l lines IH]; intros off; [reflexivity | ].
  cbn [line_sites filter filter_map]. unfold declares at 1. cbn [snd].
  destruct (prisma_field l) as [f | ] eqn:E.
  - cbn [map snd]. rewrite E, IH. reflexivity.
  - apply IH.
Qed.

Lemma StronglySorted_filter (A : Type) (R : A -> A -> Prop)
    (p : A -> bool) (l : list A) :
  StronglySorted R l -> StronglySorted R (filter p l).
Proof.
  induction 1 as [ | x l S IH F]; simpl; [constructor | ].
  destruct (p x); [ | exact IH].
  constructor; [exact IH | ].
  apply Forall_forall. intros y Hy. apply filter_In in Hy.
  rewrite Forall_forall in F. now apply F.
Qed.

Lemma StronglySorted_map_filter (A : Type) (f : A -> nat)
    (p : A -> bool) (l : list A) :
  StronglySorted lt (map f l) -> StronglySorted lt (map f (filter p l)).
Proof.
  induction l as [ | x l IH]; simpl; intros S; [constructor | ].
  inversion S as [ | ? ? S' F]; subst.
  destruct (p x); simpl; [ | auto].
  constructor; [auto | ].
  rewrite Forall_map. rewrite Forall_map in F.
  apply Forall_forall. intros y Hy. apply filter_In in Hy.
  rewrite Forall_forall in F. now apply F.
Qed.

Lemma lstrip_suffix (s : text) : exists a, s = a ++ lstrip s.
Proof.
  induction s as [ | c s (a & IH)]; simpl.
  - now exists [].
  - destruct (is_space c).
    + exists (c :: a). simpl. now rewrite <- IH.
    + now exists [].
Qed.

(** What [strip] returns is a piece of what it is given. *)
Lemma strip_within (s : text) : exists a b, s = a ++ strip s ++ b.
Proof.
  unfold strip. destruct (lstrip_suffix s) as (a & Ea).
  destruct (lstrip_suffix (rev (lstrip s))) as (b & Eb).
  exists a, (rev b). rewrite <- rev_app_distr, <- Eb, rev_involutive.
  exact Ea.
Qed.

(** A capture a match has made is a piece of the text it was tried on. *)
Lemma captures_within r s g s' g' :
  matches r s g s' g' ->
  forall n t, In (n, t) g' ->
    In (n, t) g \/ exists a b, s = a ++ t ++ b.
Proof.
  induction 1 as [ | | | r1 r2 s g s1 g1 s2 g2 M1 IH1 M2 IH2
                   | | r s g s1 g1 s2 g2 M1 IH1 L M2 IH2
                   | r s g s1 g1 M IH | | n0 r s g s1 g1 M IH ];
    intros n t Hin; auto.
  - destruct (IH2 n t Hin) as [H | (a & b & E)].
    + apply IH1 in H. exact H.
    + right. destruct (matches_suffix M1) as [p ->].
      exists (p ++ a), b. rewrite E. now rewrite <- app_assoc.
  - destruct (IH2 n t Hin) as [H | (a & b & E)].
    + apply IH1 in H. exact H.
    + right. destruct (matches_suffix M1) as [p ->].
      exists (p ++ a), b. rewrite E. now rewrite <- app_assoc.
  - destruct Hin as [E | Hin].
    + injection E as <- <-. right.
      destruct (matches_suffix M) as [p ->].
      exists [], s1. now rewrite consumed_app.
    + auto.
Qed.

Lemma lookup_group_In (n : nat) (g : groups) :
  lookup_group n g = [] \/ In (n, lookup_group n g) g.
Proof.
  induction g as [ | [i t] g IH]; simpl; [now left | ].
  destruct (i =? n) eqn:E.
  - apply Nat.eqb_eq in E. subst i. right. now left.
  - destruct IH as [IH | IH]; [now left | right; now right].
Qed.

(** A capture of a match [finditer] yields is a piece of the text. *)
Lemma finditer_group_within r s m n :
  In m (finditer r s) ->
  0 < n ->
  group n m = [] \/ exists a b, s = a ++ group n m ++ b.
Proof.
  intros Hm Hn. destruct (finditer_spec r s) as [F _].
  rewrite Forall_forall in F. destruct (F m Hm) as (rest & Hh & _).
  apply match_here_sound in Hh.
  destruct n as [ | n]; [lia | ]. cbn [group].
  destruct (lookup_group_In (S n) (m_groups m)) as [E | Hin]; [now left | ].
  right.
  destruct (captures_within Hh _ _ Hin) as [[] | (a & b & E)].
  exists (firstn (m_start m) s ++ a), b.
  rewrite <- app_assoc, <- E. symmetry. apply firstn_skipn.
Qed.

(** C4 as stated fails on both counts: the Django extractor returns [name]
    before [id] for a model that declares [id] (offset 4 of the body)
    before [name] (offset 51), and the Prisma extractor returns two fields
    named [id] for a model that declares [id] twice. *)
Lemma fields_reordered_and_repeated :
  map (fun e => map f_name (fields e)) (parse_django_text item_models_py)
    = [[str "name"; str "id"]]
  /\ map (fun m => django_sites (group 2 m))
         (finditer class_pattern item_models_py)
     = [[(0, 51); (2, 4)]]
  /\ ~ StronglySorted lt (map snd [(0, 51); (2, 4)])
  /\ map (fun e => map f_name (fields e))
         (parse_prisma_text twice_schema_prisma)
     = [[str "id"; str "id"]]
  /\ ~ NoDup [str "id"; str "id"].
Proof.
  split; [vm_compute; reflexivity | ].
  split; [vm_compute; reflexivity | ].
  split.
  - simpl. intros H. inversion H as [ | ? ? _ F]; subst.
    inversion F as [ | ? ? Hlt _]; subst. lia.
  - split; [vm_compute; reflexivity | ].
    intros H. inversion H as [ | ? ? Hn _]; subst.
    apply Hn. left. reflexivity.
Qed.

(** C4, amended: for every source file parsed by the Prisma extractor,
    the fields of each returned entity appear in the same order as their
    declarations appear in the source text: each field is declared by a
    line that stands in the file, and these lines stand at strictly
    increasing offsets.  Two fields of one entity may share a name. *)
Theorem prisma_fields_in_source_order content e :
  In e (parse_prisma_text content) ->
  exists sites : list (nat * text),
    map (fun site => prisma_field (snd site)) sites = map Some (fields e)
    /\ Forall (fun site => occurs_at content (fst site) (snd site)) sites
    /\ StronglySorted lt (map fst sites).
Proof.
  unfold parse_prisma_text. intros He. apply in_map_iff in He.
  destruct He as (m & <- & Hm).
  unfold prisma_entity. cbn [fields set_fields new_entity app].
  unfold prisma_fields, prisma_lines.
  destruct (@finditer_group_within model_pattern content m 2 Hm
              (Nat.lt_0_succ 1))
    as [E | (a & b & E)].
  - rewrite E. exists []. repeat split; constructor.
  - destruct (strip_within (group 2 m)) as (a' & b' & Eb).
    set (lines := split_on nl (strip (group 2 m))).
    assert (Ec : content = (a ++ a') ++ join [nl] lines ++ (b' ++ b)).
    { unfold lines. rewrite join_split.
      transitivity (a ++ group 2 m ++ b); [exact E | ].
      replace (a ++ group 2 m ++ b)
        with (a ++ (a' ++ strip (group 2 m) ++ b') ++ b)
        by (rewrite <- Eb; reflexivity).
      repeat rewrite <- app_assoc. reflexivity. }
    exists (filter declares (line_sites (length (a ++ a')) lines)).
    split; [apply filter_sites_fields | ]. split.
    + apply Forall_forall. intros site Hs. rewrite Ec.
      apply filter_In in Hs. destruct Hs as [Hs _].
      pose proof (line_sites_occur lines (a ++ a') (b' ++ b)) as F.
      rewrite Forall_forall in F. now apply F.
    + apply StronglySorted_map_filter. apply line_sites_sorted.
Qed.

Lemma prisma_fields_in_source_order_witness :
  exists sites : list (nat * text),
    map (fun site => prisma_field (snd site)) sites
    = map Some (fields (prisma_entity
                          (hd (mkMatch 0 [] [])
                              (finditer model_pattern twice_schema_prisma))))
    /\ Forall (fun site =>
                 occurs_at twice_schema_prisma (fst site) (snd site)) sites
    /\ StronglySorted lt (map fst sites).
Proof.
  apply (prisma_fields_in_source_order twice_schema_prisma).
  vm_compute. left. reflexivity.
Defined.

(** ** Django files and relationships *)

Lemma no_target_no_relationship e fs :
  Forall (fun f => foreign_key f = None) fs ->
  flat_map (field_relationships e) fs = [].
Proof.
  induction 1 as [ | f fs Hf _ IH]; [reflexivity | ].
  cbn [flat_map]. rewrite IH, app_nil_r.
  unfold field_relationships. now rewrite Hf.
Qed.

(** A project whose only schema source is a Django file never yields a
    relationship, whatever the file declares. *)
Lemma django_text_no_relationship content :
  derive_relationships (parse_django_text content) = [].
Proof.
  unfold derive_relationships, parse_django_text.
  induction (finditer class_pattern content) as [ | m ms IH];
    [reflexivity | ].
  cbn [map flat_map]. rewrite IH, app_nil_r.
  apply no_target_no_relationship.
  unfold django_entity. cbn [fields set_fields new_entity app].
  apply django_fields_foreign_key.
Qed.

(* ================================================================== *)
(** * Further properties *)

(** ** The text a match has read *)

Lemma matches_lang r s g s' g' :
  matches r s g s' g' -> exists q, s = q ++ s' /\ lang r q.
Proof.
  induction 1;
    repeat match goal with
           | H : exists _, _ /\ _ |- _ => destruct H as (? & -> & ?)
           end.
  - exists []. auto with regex.
  - exists [c]. auto with regex.
  - exists [c]. auto with regex.
  - eexists. rewrite app_assoc. eauto with regex.
  - exists []. auto with regex.
  - eexists. rewrite app_assoc. eauto with regex.
  - eexists. eauto with regex.
  - exists []. auto with regex.
  - eexists. eauto with regex.
Qed.

Lemma lang_Star_Cls p q : lang (Star (Cls p)) q -> forallb p q = true.
Proof.
  intros L. remember (Star (Cls p)) as r eqn:E.
  induction L; try discriminate; injection E as ->.
  - reflexivity.
  - match goal with H : lang (Cls _) _ |- _ => inversion H; subst end.
    simpl. rewrite IHL2 by reflexivity.
    match goal with H : p _ = true |- _ => now rewrite H end.
Qed.

Lemma lang_Plus_Cls p q :
  lang (Plus (Cls p)) q -> q <> [] /\ forallb p q = true.
Proof.
  unfold Plus. intros L. inversion L as [ | | | ? ? a b La Lb | | | | | ]; subst.
  inversion La; subst. apply lang_Star_Cls in Lb.
  simpl. split; [discriminate | ].
  match goal with H : p _ = true |- _ => now rewrite H, Lb end.
Qed.

Lemma lang_Lits t q : lang (Lits t) q -> q = t.
Proof.
  revert q. induction t as [ | c t IH]; intros q L; simpl in L.
  - now inversion L.
  - inversion L as [ | | | ? ? a b La Lb | | | | | ]; subst.
    inversion La; subst. apply IH in Lb. now subst.
Qed.

(** What a captured [\w+] holds. *)
Lemma matches_word_capture s g s' g' :
  matches (Plus word) s g s' g' -> g' = g /\ wordy (consumed s s').
Proof.
  intros M. split.
  - apply (matches_groupless M). reflexivity.
  - destruct (matches_lang M) as (q & -> & L).
    rewrite consumed_app. now apply lang_Plus_Cls.
Qed.

Lemma groupless_Lits t : groupless (Lits t) = true.
Proof. induction t; simpl; auto. Qed.

(** After [inv_seq]: the captures are the [\w+] groups, nothing else
    touches them. *)
Ltac settle_captures :=
  repeat match goal with
         | H : matches (Plus word) _ _ _ _ |- _ =>
             apply matches_word_capture in H; destruct H as [? ?]; subst
         | H : matches (Lits _) _ _ _ _ |- _ =>
             apply matches_groupless in H; [subst | apply groupless_Lits]
         | H : matches _ _ _ _ _ |- _ =>
             apply matches_groupless in H; [subst | reflexivity]
         end.

Lemma finditer_matches r s m :
  In m (finditer r s) ->
  exists s0 rest,
    matches r s0 [] rest (m_groups m) /\ m_text m = consumed s0 rest.
Proof.
  intros H. destruct (finditer_spec r s) as [F _].
  rewrite Forall_forall in F. destruct (F m H) as (rest & Hm & Ht).
  apply match_here_sound in Hm. eauto.
Qed.

(** ** Names are identifiers *)

Lemma class_pattern_name s g rest :
  matches class_pattern s [] rest g -> wordy (lookup_group 1 g).
Proof.
  unfold class_pattern. cbn [seqs]. intros M. inv_seq. settle_captures.
  cbn [lookup_group Nat.eqb]. assumption.
Qed.

Lemma model_pattern_name s g rest :
  matches model_pattern s [] rest g -> wordy (lookup_group 1 g).
Proof.
  unfold model_pattern. cbn [seqs]. intros M. inv_seq. settle_captures.
  cbn [lookup_group Nat.eqb]. assumption.
Qed.

Lemma field_decl_name ctor s g rest :
  matches (field_decl ctor) s [] rest g -> wordy (lookup_group 1 g).
Proof.
  unfold field_decl. cbn [seqs]. intros M. inv_seq. settle_captures.
  cbn [lookup_group Nat.eqb]. assumption.
Qed.

Lemma field_pattern_names s g rest :
  matches field_pattern s [] rest g ->
  wordy (lookup_group 1 g) /\ wordy (lookup_group 2 g).
Proof.
  unfold field_pattern. cbn [seqs]. intros M. inv_seq. settle_captures.
  cbn [lookup_group Nat.eqb]. split; assumption.
Qed.

(** ** The flags the Django extractor looks for *)

Lemma startswith_split (n h : text) :
  startswith n h = true -> exists b, h = n ++ b.
Proof.
  revert h. induction n as [ | x n IH]; intros h H.
  - now exists h.
  - destruct h as [ | y h]; [discriminate | ].
    simpl in H. apply andb_prop in H. destruct H as [Hx Hn].
    apply Ascii.eqb_eq in Hx. subst y.
    destruct (IH _ Hn) as [b ->]. now exists b.
Qed.

Lemma contains_split (n h : text) :
  contains n h = true -> exists a b, h = a ++ n ++ b.
Proof.
  induction h as [ | y h IH]; intros H.
  - simpl in H. rewrite orb_false_r in H.
    apply startswith_split in H. destruct H as [b ->]. now exists [], b.
  - simpl in H. apply orb_prop in H. destruct H as [H | H].
    + change (match n with [] => true | x :: p' => Ascii.eqb x y && startswith p' h end)
        with (startswith n (y :: h)) in H.
      apply startswith_split in H. destruct H as [b ->]. now exists [], b.
    + destruct (IH H) as (a & b & ->). now exists (y :: a), b.
Qed.

Lemma forallb_not_In (p : ascii -> bool) (c : ascii) (l : text) :
  forallb p l = true -> p c = false -> ~ In c l.
Proof.
  intros F Hc Hin. rewrite forallb_forall in F.
  apply F in Hin. congruence.
Qed.

(** A character that occurs once splits a text in one way only. *)
Lemma unique_char_split (c : ascii) (x' y' : text) :
  ~ In c x' -> ~ In c y' ->
  forall x y, x ++ c :: y = x' ++ c :: y' -> x = x' /\ y = y'.
Proof.
  intros Hx' Hy'. induction x' as [ | d x' IH]; intros x y E.
  - destruct x as [ | e x]; simpl in E.
    + injection E as ->. auto.
    + injection E as -> E. exfalso. apply Hy'. rewrite <- E.
      apply in_or_app. right. now left.
  - destruct x as [ | e x]; simpl in E.
    + injection E as -> _. exfalso. apply Hx'. now left.
    + injection E as -> E.
      destruct (IH (fun H => Hx' (or_intror H)) x y E) as [-> ->]. auto.
Qed.

(** The text of an assignment [name = models.Ctor], with white space
    around the equals sign, holds no [key=Value] whose value starts with a
    capital letter: right after its only equals sign comes white space or
    the [m] of [models]. *)
Lemma assignment_lacks_flag (pre post w sp1 sp2 lit : text) (c0 : ascii) :
  forallb is_word w = true ->
  forallb is_space sp1 = true ->
  forallb is_space sp2 = true ->
  ~ In "="%char lit ->
  is_space c0 = false ->
  hd c0 lit <> c0 -> lit <> [] ->
  contains (pre ++ "="%char :: c0 :: post)
           (w ++ sp1 ++ "="%char :: sp2 ++ lit) = false.
Proof.
  intros Hw H1 H2 Hl Hc Hh Hne.
  destruct (contains _ _) eqn:C; [ | reflexivity]. exfalso.
  apply contains_split in C. destruct C as (a & b & E).
  assert (E' : (a ++ pre) ++ "="%char :: (c0 :: post ++ b)
               = (w ++ sp1) ++ "="%char :: (sp2 ++ lit)).
  { repeat rewrite <- app_assoc. simpl.
    rewrite E. repeat rewrite <- app_assoc. reflexivity. }
  apply unique_char_split in E'.
  - destruct E' as [_ E'].
    destruct sp2 as [ | c sp2]; simpl in E'.
    + destruct lit as [ | l0 lit]; [congruence | ].
      injection E' as -> _. now apply Hh.
    + injection E' as -> _. simpl in H2. rewrite Hc in H2. discriminate.
  - intros Hin. apply in_app_or in Hin. destruct Hin as [Hin | Hin].
    + revert Hin. eapply forallb_not_In; [exact Hw | reflexivity].
    + revert Hin. eapply forallb_not_In; [exact H1 | reflexivity].
  - intros Hin. apply in_app_or in Hin. destruct Hin as [Hin | Hin].
    + revert Hin. eapply forallb_not_In; [exact H2 | reflexivity].
    + now apply Hl.
Qed.

Lemma lang_Seq_inv r1 r2 q :
  lang (Seq r1 r2) q -> exists a b, q = a ++ b /\ lang r1 a /\ lang r2 b.
Proof. intros L. inversion L; subst. eauto. Qed.

Lemma lang_Grp_inv n r q : lang (Grp n r) q -> lang r q.
Proof. intros L. now inversion L. Qed.

Lemma lang_Lit_inv c q : lang (Lit c) q -> q = [c].
Proof. intros L. now inversion L. Qed.

Lemma field_decl_text ctor q :
  lang (field_decl ctor) q ->
  exists w sp1 sp2,
    q = w ++ sp1 ++ "="%char :: sp2 ++ str "models." ++ str ctor
    /\ forallb is_word w = true
    /\ forallb is_space sp1 = true
    /\ forallb is_space sp2 = true.
Proof.
  change (field_decl ctor)
    with (Seq (Grp 1 (Plus word))
            (Seq (Star ws)
               (Seq (Lit "="%char)
                  (Seq (Star ws)
                     (Seq (Lits (str "models.")) (Lits (str ctor))))))).
  intros L.
  apply lang_Seq_inv in L. destruct L as (w & q1 & -> & Lw & L).
  apply lang_Seq_inv in L. destruct L as (sp1 & q2 & -> & L1 & L).
  apply lang_Seq_inv in L. destruct L as (e & q3 & -> & Le & L).
  apply lang_Seq_inv in L. destruct L as (sp2 & q4 & -> & L2 & L).
  apply lang_Seq_inv in L. destruct L as (m & c & -> & Lm & Lc).
  apply lang_Grp_inv, lang_Plus_Cls in Lw. destruct Lw as [_ Hw].
  apply lang_Star_Cls in L1, L2.
  apply lang_Lit_inv in Le. apply lang_Lits in Lm, Lc. subst e m c.
  exists w, sp1, sp2. auto.
Qed.

Lemma field_decl_flags ctor body m :
  ~ In "="%char (str ctor) ->
  In m (finditer (field_decl ctor) body) ->
  contains (str "primary_key=True") (group 0 m) = false
  /\ contains (str "null=False") (group 0 m) = false.
Proof.
  intros Hc Hm. apply finditer_matches in Hm.
  destruct Hm as (s0 & rest & M & Ht).
  destruct (matches_lang M) as (q & -> & L).
  rewrite consumed_app in Ht.
  apply field_decl_text in L. destruct L as (w & sp1 & sp2 & -> & Hw & H1 & H2).
  cbn [group]. rewrite Ht.
  assert (Hl : ~ In "="%char (str "models." ++ str ctor)).
  { intros Hin. apply in_app_or in Hin. destruct Hin as [Hin | Hin].
    - vm_compute in Hin. intuition discriminate.
    - now apply Hc. }
  split.
  - apply (@assignment_lacks_flag (str "primary_key") (str "rue") w sp1 sp2
             (str "models." ++ str ctor) "T"%char);
      auto; discriminate.
  - apply (@assignment_lacks_flag (str "null") (str "alse") w sp1 sp2
             (str "models." ++ str ctor) "F"%char);
      auto; discriminate.
Qed.

Lemma field_patterns_ctors :
  Forall (fun pt => exists ctor,
            fst pt = field_decl ctor /\ ~ In "="%char (str ctor))
         field_patterns.
Proof.
  unfold field_patterns.
  repeat (constructor;
          [eexists; split;
           [reflexivity | vm_compute; intuition discriminate] | ]).
  constructor.
Qed.

(** A field the Django extractor builds, as the table row and the match it
    comes from. *)
Lemma django_fields_inv body f :
  In f (django_fields body) ->
  exists ctor ty m,
    In (field_decl ctor, ty) field_patterns
    /\ ~ In "="%char (str ctor)
    /\ In m (finditer (field_decl ctor) body)
    /\ f = django_field ty m.
Proof.
  unfold django_fields. intros H. apply in_flat_map in H.
  destruct H as ([pat ty] & Hpt & Hf). apply in_map_iff in Hf.
  destruct Hf as (m & <- & Hm).
  pose proof field_patterns_ctors as F. rewrite Forall_forall in F.
  destruct (F _ Hpt) as (ctor & E & Hc). simpl in E. subst pat.
  exists ctor, ty, m. auto.
Qed.

Lemma parse_django_text_inv content e :
  In e (parse_django_text content) ->
  exists m, In m (finditer class_pattern content) /\ e = django_entity m.
Proof.
  unfold parse_django_text. intros H. apply in_map_iff in H.
  destruct H as (m & <- & Hm). eauto.
Qed.

Lemma parse_prisma_text_inv content e :
  In e (parse_prisma_text content) ->
  exists m, In m (finditer model_pattern content) /\ e = prisma_entity m.
Proof.
  unfold parse_prisma_text. intros H. apply in_map_iff in H.
  destruct H as (m & <- & Hm). eauto.
Qed.

Lemma django_fields_flags body f :
  In f (django_fields body) ->
  primary_key f = false /\ nullable f = true /\ unique f = false
  /\ foreign_key f = None /\ default f = None.
Proof.
  intros Hf. apply django_fields_inv in Hf.
  destruct Hf as (ctor & ty & fm & _ & Hc & Hfm & ->).
  destruct (field_decl_flags ctor _ _ Hc Hfm) as [Hp Hn].
  unfold django_field. rewrite Hp, Hn. repeat split.
Qed.

Lemma django_entity_fields content e f :
  In e (parse_django_text content) -> In f (fields e) ->
  exists m, In m (finditer class_pattern content)
            /\ e = django_entity m /\ In f (django_fields (group 2 m)).
Proof.
  intros He Hf. apply parse_django_text_inv in He.
  destruct He as (m & Hm & ->). exists m. auto.
Qed.

(** X1: no field the Django extractor returns is a primary key, not
    nullable, unique, a foreign key or has a default: the two flags it
    looks for are tested against the matched text, which ends at the
    constructor name and never holds them. *)
Theorem django_fields_carry_no_flag content e f :
  In e (parse_django_text content) ->
  In f (fields e) ->
  primary_key f = false /\ nullable f = true /\ unique f = false
  /\ foreign_key f = None /\ default f = None.
Proof.
  intros He Hf.
  destruct (django_entity_fields content e f He Hf) as (m & _ & _ & Hb).
  destruct (django_fields_flags _ _ Hb) as (Hp & Hn & Hu & Hk & Hd).
  repeat split; assumption.
Qed.

Lemma django_fields_carry_no_flag_witness :
  exists e f,
    In e (parse_django_text item_models_py)
    /\ In f (fields e) /\ f_name f = str "id"
    /\ primary_key f = false /\ nullable f = true.
Proof.
  assert (He : In (django_entity
                     (hd (mkMatch 0 [] [])
                         (finditer class_pattern item_models_py)))
                  (parse_django_text item_models_py))
    by (vm_compute; left; reflexivity).
  eexists. eexists. split; [exact He | ].
  assert (Hf : In (mkField (str "id") (str "integer") true false None false None)
                  (fields (django_entity
                     (hd (mkMatch 0 [] [])
                         (finditer class_pattern item_models_py)))))
    by (vm_compute; right; left; reflexivity).
  split; [exact Hf | ]. split; [reflexivity | ].
  destruct (django_fields_carry_no_flag item_models_py _ _ He Hf)
    as (Hp & Hn & _).
  split; assumption.
Defined.

Lemma django_field_name_type ty m :
  f_name (django_field ty m) = group 1 m /\ f_type (django_field ty m) = ty.
Proof.
  unfold django_field.
  destruct (contains (str "primary_key=True") (group 0 m));
    destruct (contains (str "null=False") (group 0 m)); split; reflexivity.
Qed.

Lemma class_match_name content m :
  In m (finditer class_pattern content) -> wordy (group 1 m).
Proof.
  intros Hm. apply finditer_matches in Hm.
  destruct Hm as (s0 & rest & M & _).
  apply class_pattern_name in M. exact M.
Qed.

Lemma django_fields_names body f :
  In f (django_fields body) ->
  wordy (f_name f) /\ In (f_type f) django_types.
Proof.
  intros Hf. apply django_fields_inv in Hf.
  destruct Hf as (ctor & ty & fm & Hpt & _ & Hfm & ->).
  destruct (django_field_name_type ty fm) as [-> ->]. split.
  - apply finditer_matches in Hfm. destruct Hfm as (s0 & rest & M & _).
    apply field_decl_name in M. exact M.
  - unfold django_types. apply in_map_iff.
    exists (field_decl ctor, ty). auto.
Qed.

(** X3: every entity the Django extractor returns has a non-empty word as
    its name, and so has each of its fields; the type of each field is one
    of the seven type names of the pattern table. *)
Theorem django_names_are_words content e :
  In e (parse_django_text content) ->
  wordy (e_name e)
  /\ forall f, In f (fields e) ->
       wordy (f_name f) /\ In (f_type f) django_types.
Proof.
  intros He. split.
  - apply parse_django_text_inv in He. destruct He as (m & Hm & ->).
    exact (class_match_name _ _ Hm).
  - intros f Hf.
    destruct (django_entity_fields content e f He Hf) as (m & _ & _ & Hb).
    exact (django_fields_names _ _ Hb).
Qed.

Lemma django_names_are_words_witness :
  exists e,
    In e (parse_django_text item_models_py)
    /\ e_name e = str "Item" /\ wordy (e_name e).
Proof.
  assert (He : In (django_entity
                     (hd (mkMatch 0 [] [])
                         (finditer class_pattern item_models_py)))
                  (parse_django_text item_models_py))
    by (vm_compute; left; reflexivity).
  eexists. split; [exact He | ]. split; [reflexivity | ].
  exact (proj1 (django_names_are_words item_models_py _ He)).
Defined.

Lemma in_filter_map (A B : Type) (f : A -> option B) (l : list A) (y : B) :
  In y (filter_map f l) -> exists x, In x l /\ f x = Some y.
Proof.
  induction l as [ | x l IH]; simpl; [contradiction | ].
  destruct (f x) as [y' | ] eqn:E.
  - intros [-> | H]; [eauto | ]. destruct (IH H) as (x' & ? & ?). eauto.
  - intros H. destruct (IH H) as (x' & ? & ?). eauto.
Qed.

(** A field the Prisma extractor builds from a line. *)
Lemma prisma_field_inv line f :
  prisma_field line = Some f ->
  wordy (f_name f) /\ wordy (f_type f)
  /\ (foreign_key f = None \/ foreign_key f = Some (f_type f))
  /\ default f = None.
Proof.
  unfold prisma_field.
  destruct (_ || _ || _); [discriminate | ].
  destruct (re_match field_pattern (strip line)) as [m | ] eqn:E;
    [ | discriminate].
  assert (W : wordy (group 1 m) /\ wordy (group 2 m)).
  { unfold re_match in E.
    destruct (match_here field_pattern (strip line)) as [[g s'] | ] eqn:Eh;
      [ | discriminate].
    injection E as <-. apply match_here_sound in Eh.
    apply field_pattern_names in Eh. exact Eh. }
  destruct W as [W1 W2].
  destruct (contains (str "@relation") (group 4 m));
    intros H; injection H as <-;
    cbn [f_name f_type foreign_key default set_foreign_key]; auto.
Qed.

Lemma model_match_name content m :
  In m (finditer model_pattern content) -> wordy (group 1 m).
Proof.
  intros Hm. apply finditer_matches in Hm.
  destruct Hm as (s0 & rest & M & _).
  apply model_pattern_name in M. exact M.
Qed.

Lemma prisma_entity_field content e f :
  In e (parse_prisma_text content) -> In f (fields e) ->
  exists line, prisma_field line = Some f.
Proof.
  intros He Hf. apply parse_prisma_text_inv in He.
  destruct He as (m & _ & ->).
  unfold prisma_entity in Hf. cbn [fields set_fields new_entity app] in Hf.
  unfold prisma_fields in Hf. apply in_filter_map in Hf.
  destruct Hf as (line & _ & Hl). eauto.
Qed.

(** X4: every entity the Prisma extractor returns has a non-empty word as
    its name, and each of its fields has a non-empty word as its name and
    as its type; a field's foreign-key target, when set, is its own type,
    and no field has a default. *)
Theorem prisma_names_are_words content e :
  In e (parse_prisma_text content) ->
  wordy (e_name e)
  /\ forall f, In f (fields e) ->
       wordy (f_name f) /\ wordy (f_type f)
       /\ (foreign_key f = None \/ foreign_key f = Some (f_type f))
       /\ default f = None.
Proof.
  intros He. split.
  - apply parse_prisma_text_inv in He. destruct He as (m & Hm & ->).
    exact (model_match_name _ _ Hm).
  - intros f Hf.
    destruct (prisma_entity_field content e f He Hf) as (line & Hl).
    exact (prisma_field_inv _ Hl).
Qed.

Lemma prisma_names_are_words_witness :
  exists e,
    In e (parse_prisma_text order_schema_prisma)
    /\ e_name e = str "Order" /\ wordy (e_name e).
Proof.
  assert (He : In (prisma_entity
                     (hd (mkMatch 0 [] [])
                         (finditer model_pattern order_schema_prisma)))
                  (parse_prisma_text order_schema_prisma))
    by (vm_compute; left; reflexivity).
  eexists. split; [exact He | ]. split; [reflexivity | ].
  exact (proj1 (prisma_names_are_words order_schema_prisma _ He)).
Defined.

(** ** Where the entities and relationships of a report come from *)

Lemma extract_entities_origin fs root es :
  extract_entities fs root = Ok es ->
  Forall (fun e => from_django e \/ from_prisma e) es.
Proof.
  unfold extract_entities. intros H.
  destruct (extend_all (parse_with parse_django_text fs) _ []) as [es0 | e] eqn:E;
    simpl in H; [ | discriminate].
  eapply extend_all_Forall; [ | | exact H].
  - intros c. apply Forall_forall. intros e He. right. now exists c.
  - eapply extend_all_Forall; [ | constructor | exact E].
    intros c. apply Forall_forall. intros e He. left. now exists c.
Qed.

Lemma django_entity_no_target content e f :
  In e (parse_django_text content) -> In f (fields e) ->
  foreign_key f = None.
Proof.
  intros He Hf. apply parse_django_text_inv in He.
  destruct He as (m & _ & ->).
  unfold django_entity in Hf. cbn [fields set_fields new_entity app] in Hf.
  pose proof (django_fields_foreign_key (group 2 m)) as F.
  rewrite Forall_forall in F. now apply F.
Qed.

Lemma relationship_origin fs root report r :
  extract_schema fs root = Ok report ->
  In r (relationships report) ->
  exists e f,
    In e (entities report) /\ from_prisma e /\ In f (fields e)
    /\ foreign_key f = Some (f_type f)
    /\ r = mkRel (e_name e) (f_type f) (str "1:N") (f_name f).
Proof.
  intros H Hr. apply extract_schema_ok in H. destruct H as [He Hrel].
  rewrite Hrel in Hr. unfold derive_relationships in Hr.
  apply in_flat_map in Hr. destruct Hr as (e & Hin & Hr).
  apply in_flat_map in Hr. destruct Hr as (f & Hf & Hr).
  unfold field_relationships in Hr.
  destruct (foreign_key f) as [[ | c t] | ] eqn:Ef; try contradiction.
  destruct Hr as [<- | []].
  apply extract_entities_origin in He. rewrite Forall_forall in He.
  destruct (He e Hin) as [[content Hd] | [content Hp]].
  - pose proof (django_entity_no_target content e f Hd Hf). congruence.
  - exists e, f. split; [assumption | ]. split; [now exists content | ].
    split; [assumption | ].
    destruct (prisma_entity_field content e f Hp Hf) as (line & Hl).
    destruct (prisma_field_inv _ Hl) as (_ & _ & [Hn | Hs] & _);
      [congruence | ].
    rewrite Ef in Hs. injection Hs as Hs. rewrite <- Hs, Ef. auto.
Qed.

(** X10: every relationship of a report comes from a field of an entity
    the Prisma extractor returned: it starts at that entity, goes through
    that field to the field's own type, which is the field's foreign-key
    target, and has the type 1:N.  Conversely every field of an entity of
    the report whose foreign key is set has its relationship in the
    report. *)
Theorem relationship_provenance fs root report :
  extract_schema fs root = Ok report ->
  (forall r,
     In r (relationships report) ->
     exists e f,
       In e (entities report) /\ from_prisma e /\ In f (fields e)
       /\ foreign_key f = Some (f_type f)
       /\ r = mkRel (e_name e) (f_type f) (str "1:N") (f_name f))
  /\ (forall e f target,
        In e (entities report) -> In f (fields e) ->
        foreign_key f = Some target ->
        In (mkRel (e_name e) target (str "1:N") (f_name f))
           (relationships report)).
Proof.
  intros H. split.
  - intros r Hr. exact (relationship_origin fs root r H Hr).
  - intros e f target He Hf Hk.
    destruct (extract_schema_ok _ _ H) as [Hes ->].
    apply extract_entities_fk in Hes. rewrite Forall_forall in Hes.
    pose proof (Hes e He) as Hok. unfold fields_fk_ok in Hok.
    rewrite Forall_forall in Hok. pose proof (Hok f Hf) as Hne.
    unfold fk_set_or_absent in Hne.
    unfold derive_relationships. apply in_flat_map. exists e.
    split; [exact He | ]. apply in_flat_map. exists f.
    split; [exact Hf | ]. unfold field_relationships. rewrite Hk.
    destruct target as [ | c t]; [exact (False_ind _ (Hne Hk)) | now left].
Qed.

Lemma relationship_provenance_witness :
  exists e f,
    from_prisma e /\ In f (fields e)
    /\ mkRel (str "Order") (str "User") (str "1:N") (str "user")
       = mkRel (e_name e) (f_type f) (str "1:N") (f_name f).
Proof.
  destruct (extract_schema fs_order_prisma proj) as [report | e] eqn:E;
    [ | vm_compute in E; discriminate].
  destruct (proj1 (relationship_provenance fs_order_prisma proj E)
              (mkRel (str "Order") (str "User") (str "1:N") (str "user")))
    as (e & f & _ & Hp & Hf & _ & Hr).
  - vm_compute in E. injection E as <-. left. reflexivity.
  - exists e, f. auto.
Defined.

(* ================================================================== *)
(** ** What the locator returns *)

(** Induction on a tree, with the property for every child of a
    directory. *)
Lemma node_ind_nested (P : node -> Prop) :
  (forall name content, P (File name content)) ->
  (forall name cs, Forall P cs -> P (Dir name cs)) ->
  forall n, P n.
Proof.
  intros Hf Hd.
  fix IH 1. intros [name content | name cs].
  - apply Hf.
  - apply Hd. induction cs as [ | c cs IHcs].
    + constructor.
    + constructor; [apply IH | exact IHcs].
Qed.

Lemma rglob_at_paths name :
  forall n here p,
    In p (rglob_at name here n) -> exists mid, p = here ++ mid ++ [name].
Proof.
  induction n as [nm content | nm cs IH] using node_ind_nested;
    intros here p H; simpl in H.
  - contradiction.
  - apply in_app_or in H. destruct H as [H | H].
    + destruct (find_child name cs); [ | contradiction].
      destruct H as [<- | []]. now exists [].
    + induction IH as [ | c cs Hc _ IHcs]; [contradiction | ].
      apply in_app_or in H. destruct H as [H | H].
      * apply Hc in H. destruct H as (mid & ->).
        exists (node_name c :: mid). now rewrite <- app_assoc.
      * now apply IHcs.
Qed.

Lemma rglob_paths fs root name p :
  In p (rglob fs root name) -> exists mid, p = root ++ mid ++ [name].
Proof.
  unfold rglob. destruct (lookup fs root); [ | contradiction].
  apply rglob_at_paths.
Qed.

Lemma glob_ext_paths fs d ext p :
  In p (glob_ext fs d ext) ->
  exists n, p = d ++ [n] /\ endswith ext n = true.
Proof.
  unfold glob_ext.
  destruct (lookup fs d) as [[? ? | ? cs] | ]; try contradiction.
  intros H. apply in_map_iff in H. destruct H as (c & <- & Hc).
  apply filter_In in Hc. destruct Hc as [_ Hc]. eauto.
Qed.

Lemma find_schema_files_get fs root :
  let d := find_schema_files fs root in
  get (str "django_models") d
    = (if non_empty (django_models_files fs root)
       then Some (django_models_files fs root) else None)
  /\ get (str "prisma_schema") d
     = (if non_empty (prisma_schema_files fs root)
        then Some (prisma_schema_files fs root) else None)
  /\ get (str "rails_migrations") d
     = (if non_empty (rails_migrations_files fs root)
        then Some (rails_migrations_files fs root) else None)
  /\ get (str "knex_migrations") d
     = (if non_empty (knex_migrations_files fs root)
        then Some (knex_migrations_files fs root) else None)
  /\ get (str "sql_schema") d
     = (if non_empty (sql_schema_files fs root)
        then Some (sql_schema_files fs root) else None)
  /\ get (str "sqlalchemy_models") d = None.
Proof.
  unfold find_schema_files.
  destruct (django_models_files fs root);
    destruct (prisma_schema_files fs root);
    destruct (rails_migrations_files fs root);
    destruct (knex_migrations_files fs root);
    destruct (sql_schema_files fs root);
    repeat split; reflexivity.
Qed.

Lemma files_of_get (key : text) (d : file_map) (l : list path) :
  get key d = (if non_empty l then Some l else None) -> files_of key d = l.
Proof.
  unfold files_of. intros ->. destruct l; reflexivity.
Qed.

Lemma get_In (key : text) (d : file_map) (l : list path) :
  get key d = Some l -> exists k, In (k, l) d.
Proof.
  induction d as [ | [k v] d IH]; simpl; [discriminate | ].
  destruct (text_eqb k key).
  - intros H. injection H as ->. eauto.
  - intros H. destruct (IH H) as (k' & Hk). eauto.
Qed.

Lemma NoDup_map_filter (A B : Type) (f : A -> B) (p : A -> bool) (l : list A) :
  NoDup (map f l) -> NoDup (map f (filter p l)).
Proof.
  induction l as [ | x l IH]; simpl; intros H; [constructor | ].
  inversion H as [ | ? ? Hn Hd]; subst.
  destruct (p x); simpl; [ | auto].
  constructor; [ | auto].
  intros Hin. apply Hn. apply in_map_iff in Hin.
  destruct Hin as (y & <- & Hy). apply filter_In in Hy.
  apply in_map. tauto.
Qed.

(** X6: the dictionary the locator returns never maps a key to an empty
    list, never has the key [sqlalchemy_models], and has no key twice. *)
Theorem find_schema_files_no_empty_entry fs root :
  (forall key l, get key (find_schema_files fs root) = Some l -> l <> [])
  /\ get (str "sqlalchemy_models") (find_schema_files fs root) = None
  /\ NoDup (map fst (find_schema_files fs root)).
Proof.
  split; [ | split].
  - intros key l H. apply get_In in H. destruct H as (k & Hk).
    unfold find_schema_files in Hk. apply filter_In in Hk.
    destruct Hk as [_ Hk]. simpl in Hk. destruct l; congruence.
  - apply (find_schema_files_get fs root).
  - unfold find_schema_files. apply NoDup_map_filter.
    cbn [map fst].
    repeat (constructor; [vm_compute; intuition discriminate | ]).
    constructor.
Qed.

Lemma has_part_app name (a b : path) :
  has_part name (a ++ b) = has_part name a || has_part name b.
Proof. apply existsb_app. Qed.

Lemma filter_none (A : Type) (p : A -> bool) (l : list A) :
  (forall x, In x l -> p x = false) -> filter p l = [].
Proof.
  induction l as [ | x l IH]; intros H; simpl; [reflexivity | ].
  rewrite (H x) by now left. apply IH. intros; apply H; now right.
Qed.

Lemma last_part (a : path) (name : text) : last (a ++ [name]) [] = name.
Proof. apply last_last. Qed.

(** X7: every file the locator returns under [django_models],
    [prisma_schema] or [sql_schema] lies below the root and is named
    [models.py], [schema.prisma] or [schema.sql]; a Django file has no part
    named [venv] or [migrations] anywhere in its resolved path. *)
Theorem located_files_are_named fs root p :
  let d := find_schema_files fs root in
  (In p (files_of (str "django_models") d) ->
     (exists mid, p = root ++ mid ++ [str "models.py"])
     /\ has_part (str "venv") p = false
     /\ has_part (str "migrations") p = false)
  /\ (In p (files_of (str "prisma_schema") d) ->
        exists mid, p = root ++ mid ++ [str "schema.prisma"])
  /\ (In p (files_of (str "sql_schema") d) ->
        exists mid, p = root ++ mid ++ [str "schema.sql"]).
Proof.
  intros d. destruct (find_schema_files_get fs root)
    as (Gd & Gp & _ & _ & Gs & _). fold d in Gd, Gp, Gs.
  rewrite (files_of_get _ _ _ Gd), (files_of_get _ _ _ Gp),
    (files_of_get _ _ _ Gs).
  split; [ | split].
  - intros H. split.
    + unfold django_models_files in H. apply filter_In in H.
      destruct H as [H _]. now apply rglob_paths in H.
    + now apply django_models_files_filtered in H.
  - apply rglob_paths.
  - apply rglob_paths.
Qed.

Lemma located_files_are_named_witness :
  exists mid,
    proj ++ [str "venv"; str "schema.prisma"]
    = proj ++ mid ++ [str "schema.prisma"].
Proof.
  apply (proj1 (proj2 (located_files_are_named fs_vendored proj
                         (proj ++ [str "venv"; str "schema.prisma"])))).
  vm_compute. left. reflexivity.
Defined.

(** X8: every file the locator returns under [rails_migrations] is a child
    of [db/migrate] below the root with a name ending in [.rb]; every file
    under [knex_migrations] is a child of a path named [migrations] below
    the root with a name ending in [.js] or [.ts]. *)
Theorem located_migrations fs root p :
  let d := find_schema_files fs root in
  (In p (files_of (str "rails_migrations") d) ->
     exists n, p = root ++ [str "db"; str "migrate"; n]
               /\ endswith (str ".rb") n = true)
  /\ (In p (files_of (str "knex_migrations") d) ->
        exists mid n,
          p = root ++ mid ++ [str "migrations"; n]
          /\ (endswith (str ".js") n = true
              \/ endswith (str ".ts") n = true)).
Proof.
  intros d. destruct (find_schema_files_get fs root)
    as (_ & _ & Gr & Gk & _ & _). fold d in Gr, Gk.
  rewrite (files_of_get _ _ _ Gr), (files_of_get _ _ _ Gk).
  split.
  - unfold rails_migrations_files.
    destruct (path_exists fs _); [ | contradiction].
    intros H. apply glob_ext_paths in H. destruct H as (n & -> & Hn).
    exists n. rewrite <- app_assoc. auto.
  - unfold knex_migrations_files. intros H. apply in_flat_map in H.
    destruct H as (dir & Hd & H).
    apply rglob_paths in Hd. destruct Hd as (mid & ->).
    destruct (path_is_dir fs _); [ | contradiction].
    apply in_app_or in H.
    destruct H as [H | H]; apply glob_ext_paths in H;
      destruct H as (n & -> & Hn); exists mid, n;
      repeat rewrite <- app_assoc; auto.
Qed.

Lemma located_migrations_witness :
  exists mid n,
    proj ++ [str "app"; str "migrations"; str "001_init.js"]
    = proj ++ mid ++ [str "migrations"; n]
    /\ (endswith (str ".js") n = true \/ endswith (str ".ts") n = true).
Proof.
  apply (proj2 (located_migrations fs_migrations proj
                  (proj ++ [str "app"; str "migrations"; str "001_init.js"]))).
  vm_compute. left. reflexivity.
Defined.

(** X9: when the resolved root itself has a part named [venv] or
    [migrations], the locator returns no Django file at all, whatever the
    tree holds: the key [django_models] is absent. *)
Theorem root_below_venv_hides_django fs root :
  has_part (str "venv") root = true
  \/ has_part (str "migrations") root = true ->
  get (str "django_models") (find_schema_files fs root) = None.
Proof.
  intros H.
  assert (E : django_models_files fs root = []).
  { unfold django_models_files. apply filter_none. intros p Hp.
    apply rglob_paths in Hp. destruct Hp as (mid & ->).
    repeat rewrite has_part_app.
    destruct H as [-> | ->]; simpl.
    - now rewrite andb_false_r.
    - reflexivity. }
  destruct (find_schema_files_get fs root) as (Gd & _).
  rewrite Gd, E. reflexivity.
Qed.

Lemma root_below_venv_hides_django_witness :
  get (str "django_models") (find_schema_files fs_below_venv venv_proj) = None
  /\ rglob fs_below_venv venv_proj (str "models.py")
     = [venv_proj ++ [str "models.py"]].
Proof.
  split.
  - apply root_below_venv_hides_django. left. reflexivity.
  - reflexivity.
Defined.

(** X11: the framework a report records is Prisma whenever the locator found
    a Prisma schema, also when it found Django files too; it is Django ORM
    when only Django files were found, and absent when neither was; the
    database type is never set. *)
Theorem orm_framework_last_wins fs root report :
  extract_schema fs root = Ok report ->
  orm_framework report
    = (if non_empty (prisma_schema_files fs root) then Some (str "Prisma")
       else if non_empty (django_models_files fs root)
            then Some (str "Django ORM") else None)
  /\ database_type report = None.
Proof.
  unfold extract_schema.
  destruct (find_schema_files_get fs root) as (Gd & Gp & _).
  cbv zeta in Gd, Gp. rewrite Gd, Gp. clear Gd Gp.
  destruct (django_models_files fs root) as [ | d ds];
    destruct (prisma_schema_files fs root) as [ | p ps];
    cbn [non_empty bind fst snd].
  - intros H. injection H as <-. auto.
  - destruct (extend_all _ (p :: ps) []) as [es | e]; cbn [bind fst snd];
      [ | discriminate].
    intros H. injection H as <-. auto.
  - destruct (extend_all _ (d :: ds) []) as [es | e]; cbn [bind fst snd];
      [ | discriminate].
    intros H. injection H as <-. auto.
  - destruct (extend_all _ (d :: ds) []) as [es | e]; cbn [bind fst snd];
      [ | discriminate].
    destruct (extend_all _ (p :: ps) es) as [es' | e]; cbn [bind fst snd];
      [ | discriminate].
    intros H. injection H as <-. auto.
Qed.

Lemma orm_framework_last_wins_witness :
  exists report,
    extract_schema fs_both proj = Ok report
    /\ map e_name (entities report) = [str "Order"; str "Order"]
    /\ orm_framework report = Some (str "Prisma").
Proof.
  destruct (extract_schema fs_both proj) as [report | e] eqn:E;
    [ | vm_compute in E; discriminate].
  exists report. split; [reflexivity | ].
  split.
  - vm_compute in E. injection E as <-. reflexivity.
  - rewrite (proj1 (orm_framework_last_wins fs_both proj E)).
    reflexivity.
Defined.

(* ================================================================== *)
(** ** The table-name override *)

Lemma re_search_sound r s m :
  re_search r s = Some m ->
  exists pre s0 rest,
    s = pre ++ s0 /\ matches r s0 [] rest (m_groups m).
Proof.
  revert m. induction s as [ | c s IH]; intros m H; simpl in H.
  - destruct (match_here r []) as [[g s'] | ] eqn:E; [ | discriminate].
    injection H as <-. apply match_here_sound in E.
    exists [], [], s'. auto.
  - destruct (match_here r (c :: s)) as [[g s'] | ] eqn:E.
    + injection H as <-. apply match_here_sound in E.
      exists [], (c :: s), s'. auto.
    + destruct (re_search r s) as [m' | ]; [ | discriminate].
      injection H as <-.
      destruct (IH m' eq_refl) as (pre & s0 & rest & -> & M).
      exists (c :: pre), s0, rest. auto.
Qed.

Lemma meta_pattern_text q :
  lang meta_pattern q ->
  exists head mid tail,
    q = head ++ (str "Meta:" ++ mid ++ str "db_table") ++ tail
    /\ one_line mid = true.
Proof.
  change meta_pattern
    with (Seq (Lits (str "class"))
            (Seq (Plus ws)
               (Seq (Lits (str "Meta:"))
                  (Seq (Star dot)
                     (Seq (Lits (str "db_table"))
                        (seqs [Star ws; Lit "="%char; Star ws; Cls is_quote;
                               Grp 1 (Plus word); Cls is_quote])))))).
  intros L.
  apply lang_Seq_inv in L. destruct L as (c & q1 & -> & Lc & L).
  apply lang_Seq_inv in L. destruct L as (sp & q2 & -> & Lsp & L).
  apply lang_Seq_inv in L. destruct L as (m & q3 & -> & Lm & L).
  apply lang_Seq_inv in L. destruct L as (mid & q4 & -> & Lmid & L).
  apply lang_Seq_inv in L. destruct L as (t & tail & -> & Lt & _).
  apply lang_Lits in Lm, Lt. subst m t.
  apply lang_Star_Cls in Lmid.
  exists (c ++ sp), mid, tail. split; [ | exact Lmid].
  repeat rewrite <- app_assoc. reflexivity.
Qed.

(** A piece of text without a line feed lies within one of the lines. *)
Lemma split_on_head_core (core post : text) :
  one_line core = true ->
  exists v ls, split_on nl (core ++ post) = (core ++ v) :: ls.
Proof.
  induction core as [ | c core IH]; intros H.
  - simpl. destruct (split_on nl post) as [ | l ls] eqn:E.
    + destruct post as [ | x post]; simpl in E; [discriminate | ].
      destruct (Ascii.eqb x nl); [discriminate | ].
      destruct (split_on nl post); discriminate.
    + eauto.
  - simpl in H. apply andb_prop in H. destruct H as [Hc Hcore].
    apply negb_true_iff in Hc.
    destruct (IH Hcore) as (v & ls & E).
    simpl. rewrite Hc, E. eauto.
Qed.

Lemma split_on_line_with (pre core post : text) :
  one_line core = true ->
  exists u v, In (u ++ core ++ v) (split_on nl (pre ++ core ++ post)).
Proof.
  intros H. induction pre as [ | c pre (u & v & IH)].
  - destruct (@split_on_head_core core post H) as (v & ls & E).
    exists [], v. simpl. rewrite E. now left.
  - simpl. destruct (Ascii.eqb c nl).
    + exists u, v. now right.
    + destruct (split_on nl (pre ++ core ++ post)) as [ | l ls];
        [contradiction | ].
      destruct IH as [-> | IH].
      * exists (c :: u), v. now left.
      * exists u, v. now right.
Qed.

Lemma startswith_app_self (n v : text) : startswith n (n ++ v) = true.
Proof.
  induction n as [ | x n IH]; simpl; [reflexivity | ].
  now rewrite Ascii.eqb_refl.
Qed.

Lemma contains_startswith (n s : text) :
  startswith n s = true -> contains n s = true.
Proof.
  intros H. destruct s; simpl; rewrite H; reflexivity.
Qed.

Lemma contains_middle (n u v : text) : contains n (u ++ n ++ v) = true.
Proof.
  induction u as [ | x u IH].
  - cbn [app]. apply contains_startswith. apply startswith_app_self.
  - cbn [app contains]. rewrite IH. apply orb_true_r.
Qed.

(** X2: the Django extractor honours a [db_table] override only when one
    single line of the class body holds both [Meta:] and [db_table]: when
    no line does, as in the usual layout with [db_table] on the line after
    [class Meta:], the table name is the default one. *)
Theorem meta_override_needs_one_line class_name class_body :
  (forall line,
     In line (split_on nl class_body) ->
     contains (str "Meta:") line && contains (str "db_table") line = false) ->
  django_table_name class_name class_body = lower class_name ++ str "s".
Proof.
  intros Hlines. unfold django_table_name.
  destruct (re_search meta_pattern class_body) as [m | ] eqn:E;
    [ | reflexivity].
  exfalso. apply re_search_sound in E.
  destruct E as (pre & s0 & rest & -> & M).
  destruct (matches_lang M) as (q & -> & L).
  apply meta_pattern_text in L.
  destruct L as (head & mid & tail & -> & Hmid).
  assert (Hcore : one_line (str "Meta:" ++ mid ++ str "db_table") = true).
  { unfold one_line in *. repeat rewrite lacks_app. now rewrite Hmid. }
  destruct (@split_on_line_with (pre ++ head)
              (str "Meta:" ++ mid ++ str "db_table") (tail ++ rest) Hcore)
    as (u & v & Hin).
  replace ((pre ++ head) ++ (str "Meta:" ++ mid ++ str "db_table")
           ++ tail ++ rest)
    with (pre ++ (head ++ (str "Meta:" ++ mid ++ str "db_table") ++ tail)
          ++ rest) in Hin
    by (repeat rewrite <- app_assoc; reflexivity).
  apply Hlines in Hin. apply andb_false_iff in Hin.
  destruct Hin as [Hc | Hc].
  - replace (u ++ (str "Meta:" ++ mid ++ str "db_table") ++ v)
      with (u ++ str "Meta:" ++ (mid ++ str "db_table" ++ v)) in Hc
      by (repeat rewrite <- app_assoc; reflexivity).
    rewrite contains_middle in Hc. discriminate.
  - replace (u ++ (str "Meta:" ++ mid ++ str "db_table") ++ v)
      with ((u ++ str "Meta:" ++ mid) ++ str "db_table" ++ v) in Hc
      by (repeat rewrite <- app_assoc; reflexivity).
    rewrite contains_middle in Hc. discriminate.
Qed.

Lemma meta_override_needs_one_line_witness :
  django_table_name (str "Order") meta_body = str "orders".
Proof.
  apply (meta_override_needs_one_line (str "Order") meta_body).
  intros line H. vm_compute in H.
  repeat (destruct H as [<- | H]; [vm_compute; reflexivity | ]).
  contradiction.
Defined.

(* ================================================================== *)
(** ** The diagram of an extracted report *)

Lemma words_lack (d : ascii) (t : text) :
  is_word d = false -> forallb is_word t = true -> lacks d t = true.
Proof.
  intros Hd Ht. unfold lacks. apply forallb_forall. intros c Hc.
  rewrite forallb_forall in Ht. apply Ht in Hc.
  destruct (Ascii.eqb c d) eqn:E; [ | reflexivity].
  apply Ascii.eqb_eq in E. congruence.
Qed.

Lemma wordy_one_line t : wordy t -> one_line t = true.
Proof. intros [_ H]. now apply words_lack. Qed.

Lemma wordy_no_space t : wordy t -> lacks " "%char t = true.
Proof. intros [_ H]. now apply words_lack. Qed.

Lemma django_types_one_line ty : In ty django_types -> one_line ty = true.
Proof.
  intros H. vm_compute in H.
  repeat (destruct H as [<- | H]; [reflexivity | ]). contradiction.
Qed.

Lemma extracted_entity_ok e :
  from_django e \/ from_prisma e -> entity_ok (entity_to_dict e) = true.
Proof.
  intros H. unfold entity_ok, entity_to_dict.
  cbn [ed_name ed_fields get_list].
  assert (N : wordy (e_name e)
              /\ forall f, In f (fields e) ->
                   one_line (f_type f) = true /\ one_line (f_name f) = true).
  { destruct H as [[c Hc] | [c Hc]].
    - split.
      + apply parse_django_text_inv in Hc. destruct Hc as (m & Hm & ->).
        exact (class_match_name _ _ Hm).
      + intros f Hin.
        destruct (django_entity_fields c e f Hc Hin) as (m & _ & _ & Hb).
        destruct (django_fields_names _ _ Hb) as [Hw Ht]. split.
        * now apply django_types_one_line.
        * now apply wordy_one_line.
    - split.
      + apply parse_prisma_text_inv in Hc. destruct Hc as (m & Hm & ->).
        exact (model_match_name _ _ Hm).
      + intros f Hin.
        destruct (prisma_entity_field c e f Hc Hin) as (line & Hl).
        destruct (prisma_field_inv _ Hl) as (Hw & Ht & _).
        split; now apply wordy_one_line. }
  destruct N as [Hn Hf].
  rewrite (wordy_one_line Hn). simpl.
  apply forallb_forall. intros fd Hfd. apply in_map_iff in Hfd.
  destruct Hfd as (f & <- & Hin). unfold field_ok, field_to_dict.
  cbn [fd_type fd_name]. destruct (Hf f Hin) as [-> ->]. reflexivity.
Qed.

Lemma extracted_snapshot_ok fs root report :
  extract_schema fs root = Ok report -> snapshot_ok (snapshot report) = true.
Proof.
  intros H. unfold snapshot_ok, snapshot.
  cbn [sd_entities sd_relationships get_list].
  apply andb_true_intro. split.
  - apply forallb_forall. intros ed Hed. apply in_map_iff in Hed.
    destruct Hed as (e & <- & He). apply extracted_entity_ok.
    apply extract_schema_ok in H. destruct H as [H _].
    apply extract_entities_origin in H. rewrite Forall_forall in H. auto.
  - apply forallb_forall. intros rd Hrd. apply in_map_iff in Hrd.
    destruct Hrd as (r & <- & Hr).
    destruct (relationship_origin fs root r H Hr)
      as (e & f & _ & [c Hc] & Hf & _ & ->).
    destruct (prisma_entity_field c e f Hc Hf) as (line & Hl).
    destruct (prisma_field_inv _ Hl) as (Hw & Ht & _).
    assert (Hn : wordy (e_name e)).
    { apply parse_prisma_text_inv in Hc. destruct Hc as (m & Hm & ->).
      exact (model_match_name _ _ Hm). }
    unfold rel_ok, rel_to_dict.
    cbn [rd_from rd_to rd_field rel_from rel_to rel_field opt_one_line].
    now rewrite (wordy_one_line Hn), (wordy_one_line Ht), (wordy_one_line Hw).
Qed.

(** X12: in the diagram rendered from the snapshot of any report
    [extract_schema] returns, no rendered line holds a line feed: splitting
    the markup at its line feeds gives back exactly the lines the renderer
    built. *)
Theorem extracted_diagram_lines fs root report :
  extract_schema fs root = Ok report ->
  forallb one_line (erd_lines (snapshot report)) = true
  /\ split_on nl (generate_mermaid_erd (snapshot report))
     = erd_lines (snapshot report).
Proof.
  intros H. pose proof (extracted_snapshot_ok fs root H) as Hok.
  pose proof (erd_lines_one_line _ Hok) as Hl.
  split; [exact Hl | ].
  unfold generate_mermaid_erd. apply split_join_lines; [ | exact Hl].
  unfold erd_lines. cbn [app]. discriminate.
Qed.

Lemma extracted_diagram_lines_witness :
  exists report,
    extract_schema fs_both proj = Ok report
    /\ length (split_on nl (generate_mermaid_erd (snapshot report))) = 9.
Proof.
  destruct (extract_schema fs_both proj) as [report | e] eqn:E;
    [ | vm_compute in E; discriminate].
  exists report. split; [reflexivity | ].
  rewrite (proj2 (extracted_diagram_lines fs_both proj E)).
  vm_compute in E. injection E as <-. reflexivity.
Defined.

(** X13: in the diagram of an extracted report, every relationship is drawn
    with the one-to-many token and labelled with its field: its line is
    four spaces, the source entity, the token, the target, a colon and the
    field name between double quotes. *)
Theorem extracted_relationship_lines fs root report r :
  extract_schema fs root = Ok report ->
  In r (relationships report) ->
  rel_line (rel_to_dict r)
  = str "    " ++ rel_from r ++ str " ||--o{ " ++ rel_to r
    ++ str " : " ++ [dquote] ++ rel_field r ++ [dquote].
Proof.
  intros H Hr.
  destruct (relationship_origin fs root r H Hr)
    as (e & f & _ & [c Hc] & Hf & _ & ->).
  destruct (prisma_entity_field c e f Hc Hf) as (line & Hl).
  destruct (prisma_field_inv _ Hl) as ([Hne _] & _).
  unfold rel_line, rel_to_dict.
  cbn [rd_from rd_to rd_type rd_field rel_from rel_to rel_type rel_field].
  destruct (f_name f) as [ | x t]; [congruence | ]. reflexivity.
Qed.

Lemma extracted_relationship_lines_witness :
  rel_line (rel_to_dict
              (mkRel (str "Order") (str "User") (str "1:N") (str "user")))
  = str "    Order ||--o{ User : " ++ [dquote] ++ str "user" ++ [dquote].
Proof.
  destruct (extract_schema fs_order_prisma proj) as [report | e] eqn:E;
    [ | vm_compute in E; discriminate].
  rewrite (extracted_relationship_lines fs_order_prisma proj
             (mkRel (str "Order") (str "User") (str "1:N") (str "user")) E).
  - reflexivity.
  - vm_compute in E. injection E as <-. left. reflexivity.
Defined.

(** X14: a field the Django extractor returns is drawn without any
    annotation: its diagram line is the indentation, the type, a space and
    the name, whatever the model declares about keys or null. *)
Theorem django_field_lines_bare content e f :
  In e (parse_django_text content) ->
  In f (fields e) ->
  field_line (field_to_dict f)
  = str "        " ++ f_type f ++ str " " ++ f_name f.
Proof.
  intros He Hf.
  destruct (django_entity_fields content e f He Hf) as (m & _ & _ & Hb).
  destruct (django_fields_flags _ _ Hb) as (Hp & Hn & Hu & Hk & _).
  unfold field_line, field_constraints, field_to_dict.
  cbn [fd_primary_key fd_foreign_key fd_unique fd_nullable fd_type fd_name].
  rewrite Hp, Hn, Hu, Hk. cbn. now rewrite app_nil_r.
Qed.

Lemma django_field_lines_bare_witness :
  field_line (field_to_dict
                (mkField (str "id") (str "integer") true false None false None))
  = str "        integer id".
Proof.
  rewrite (django_field_lines_bare item_models_py
             (django_entity
                (hd (mkMatch 0 [] [])
                    (finditer class_pattern item_models_py)))).
  - reflexivity.
  - vm_compute. left. reflexivity.
  - vm_compute. right. left. reflexivity.
Defined.

(** X15: the diagram always starts with the line [erDiagram]; after it come
    no line for an entity without a field, one line per field plus two for
    every other entity, and one line per relationship, whether or not its
    endpoints are entities of the snapshot. *)
Theorem erd_line_count data :
  hd [] (erd_lines data) = str "erDiagram"
  /\ length (erd_lines data)
     = 1 + list_sum (map block_size (get_list (sd_entities data)))
       + length (get_list (sd_relationships data)).
Proof.
  split; [reflexivity | ].
  assert (B : forall es, length (flat_map entity_block es)
                         = list_sum (map block_size es)).
  { induction es as [ | e es IH]; [reflexivity | ].
    cbn [flat_map map list_sum]. rewrite length_app, IH. f_equal.
    unfold entity_block, block_size.
    destruct (get_list (ed_fields e)) as [ | f fs]; [reflexivity | ].
    repeat rewrite length_app. rewrite length_map. simpl. lia. }
  unfold erd_lines. cbn [app length]. rewrite length_app, length_map, B.
  lia.
Qed.

(* ================================================================== *)
(** ** The renderer command *)

Lemma from_slash_none (l : text) :
  lacks "/"%char l = true -> from_slash l = [].
Proof.
  induction l as [ | c l IH]; simpl; intros H; [reflexivity | ].
  apply andb_prop in H. destruct H as [Hc Hl].
  apply negb_true_iff in Hc. unfold is_slash. rewrite Hc. now apply IH.
Qed.

Lemma lacks_rev (c : ascii) (l : text) : lacks c (rev l) = lacks c l.
Proof.
  unfold lacks. induction l as [ | x l IH]; simpl; [reflexivity | ].
  rewrite forallb_app, IH. simpl. rewrite andb_true_r. apply andb_comm.
Qed.

(** The directory part of a name without a slash is empty. *)
Lemma dirname_bare (p : text) : lacks "/"%char p = true -> dirname p = [].
Proof.
  intros H. unfold dirname.
  rewrite from_slash_none by now rewrite lacks_rev. reflexivity.
Qed.

Section RenderCommandFacts.

Variable path_on_disk : text -> bool.
Variable load_schema_from_json : text -> option schema_data.
Variable can_make : text -> bool.
Variable can_write : text -> bool.

Let run := erd_main path_on_disk load_schema_from_json can_make can_write.

(** X16: the renderer command returns 1 and writes nothing when it gets no
    snapshot argument or the snapshot path does not exist, and those are
    the only runs that return 1; a run that returns 0 has loaded the
    snapshot and written exactly one file, the diagram of that snapshot,
    to the output argument or else to the default path. *)
Theorem erd_main_exit_code (argv : list text) :
  (length argv < 2 \/ path_on_disk (nth 1 argv []) = false ->
   run argv = ErdReturned 1 [])
  /\ (forall code written,
        run argv = ErdReturned code written ->
        (code = 1 /\ written = []
         /\ (length argv < 2 \/ path_on_disk (nth 1 argv []) = false))
        \/ (code = 0
            /\ 2 <= length argv
            /\ path_on_disk (nth 1 argv []) = true
            /\ exists data,
                 load_schema_from_json (nth 1 argv []) = Some data
                 /\ written
                    = [(if 2 <? length argv then nth 2 argv []
                        else default_erd_output,
                        generate_mermaid_erd data)])).
Proof.
  unfold run, erd_main, save_erd. split.
  - intros [H | H].
    + apply Nat.ltb_lt in H. now rewrite H.
    + destruct (length argv <? 2); [reflexivity | ]. now rewrite H.
  - intros code written.
    destruct (length argv <? 2) eqn:L.
    + intros E. injection E as <- <-. left.
      apply Nat.ltb_lt in L. auto.
    + apply Nat.ltb_ge in L.
      destruct (path_on_disk (nth 1 argv [])) eqn:P; cbn [negb].
      * destruct (load_schema_from_json (nth 1 argv [])) as [data | ];
          [ | discriminate].
        destruct (dirname _) as [ | c d]; [discriminate | ].
        destruct (can_make (c :: d)); [ | discriminate].
        destruct (can_write _); [ | discriminate].
        intros E. injection E as <- <-. right.
        repeat split; eauto.
      * intros E. injection E as <- <-. left. auto.
Qed.

(** X17: given an output argument without any slash, the renderer command
    never writes a file: once the snapshot is loaded, making the empty
    directory name raises, whatever the state of the disk. *)
Theorem erd_main_bare_output_raises (prog json_file output_file : text)
    (more : list text) (data : schema_data) :
  lacks "/"%char output_file = true ->
  path_on_disk json_file = true ->
  load_schema_from_json json_file = Some data ->
  run (prog :: json_file :: output_file :: more)
  = ErdUncaught (MakedirsError []).
Proof.
  intros Hb Hp Hl. unfold run, erd_main, save_erd.
  cbn [length Nat.ltb Nat.leb nth]. rewrite Hp, Hl. cbn [negb].
  now rewrite (dirname_bare _ Hb).
Qed.

End RenderCommandFacts.

Lemma erd_main_exit_code_witness :
  erd_main (fun _ => false) (fun _ => None) (fun _ => true) (fun _ => true)
           [str "generate_erd.py"; str "missing.json"]
  = ErdReturned 1 [].
Proof.
  apply (proj1 (erd_main_exit_code (fun _ => false) (fun _ => None)
                  (fun _ => true) (fun _ => true)
                  [str "generate_erd.py"; str "missing.json"])).
  right. reflexivity.
Defined.

Lemma erd_main_bare_output_raises_witness :
  erd_main (fun _ => true) (fun _ => Some user_snapshot)
           (fun _ => true) (fun _ => true)
           [str "generate_erd.py"; str "schema.json"; str "erd.mmd"]
  = ErdUncaught (MakedirsError []).
Proof.
  apply (@erd_main_bare_output_raises (fun _ => true)
           (fun _ => Some user_snapshot) (fun _ => true) (fun _ => true)
           (str "generate_erd.py") (str "schema.json") (str "erd.mmd") []
           user_snapshot);
    reflexivity.
Defined.

(* ================================================================== *)
(** ** The package-file locator *)

Lemma dict_set_In key value d k v :
  In (k, v) (dict_set key value d) ->
  (k = key /\ v = value) \/ In (k, v) d.
Proof.
  induction d as [ | [k0 v0] d IH]; simpl.
  - intros [E | []]. injection E as <- <-. auto.
  - destruct (text_eqb k0 key) eqn:T.
    + intros [E | H].
      * injection E as <- <-. left. split; [ | reflexivity].
        clear -T. revert key T.
        induction k0 as [ | x k0 IHk]; intros [ | y key] T;
          try discriminate; [reflexivity | ].
        simpl in T. apply andb_prop in T. destruct T as [Tx Tk].
        apply Ascii.eqb_eq in Tx. subst y. f_equal. now apply IHk.
      * auto.
    + intros [E | H]; [auto | ].
      destruct (IH H) as [? | ?]; auto.
Qed.

Lemma find_package_files_from_inv fs root patterns :
  forall acc manager p,
    In (manager, p) (find_package_files_from fs root patterns acc) ->
    In (manager, p) acc
    \/ exists pattern rest,
         In (pattern, manager) patterns
         /\ package_matches fs root pattern = p :: rest.
Proof.
  unfold find_package_files_from.
  induction patterns as [ | [pattern mgr] patterns IH]; intros acc manager p H.
  - now left.
  - cbn [fold_left fst snd] in H. apply IH in H.
    destruct H as [H | (pat & rest & Hin & Hm)].
    + destruct (package_matches fs root pattern) as [ | first rest] eqn:E.
      * now left.
      * apply dict_set_In in H. destruct H as [[-> ->] | H]; [ | now left].
        right. exists pattern, rest. split; [now left | exact E].
    + right. exists pat, rest. split; [now right | exact Hm].
Qed.

(** X18: every path the package-file locator returns lies in no vendored
    directory ([node_modules], [vendor], [.venv], [venv], [__pycache__]):
    it is the first match of its manager's manifest name that has no such
    part, and it lies below the root. *)
Theorem find_package_files_not_vendored fs root manager p :
  In (manager, p) (find_package_files fs root) ->
  vendored p = false
  /\ exists pattern rest mid,
       In (pattern, manager) search_patterns
       /\ package_matches fs root pattern = p :: rest
       /\ p = root ++ mid ++ [pattern].
Proof.
  unfold find_package_files. intros H.
  apply find_package_files_from_inv in H.
  destruct H as [[] | (pattern & rest & Hin & Hm)].
  assert (Hp : In p (package_matches fs root pattern))
    by (rewrite Hm; now left).
  unfold package_matches in Hp. apply filter_In in Hp.
  destruct Hp as [Hr Hv]. apply negb_true_iff in Hv.
  split; [exact Hv | ].
  apply rglob_paths in Hr. destruct Hr as (mid & ->).
  exists pattern, rest, mid. auto.
Qed.

Lemma find_package_files_not_vendored_witness :
  find_package_files fs_packages proj
    = [(str "npm", proj ++ [str "web"; str "package.json"])]
  /\ vendored (proj ++ [str "web"; str "package.json"]) = false.
Proof.
  split; [vm_compute; reflexivity | ].
  apply (find_package_files_not_vendored fs_packages proj
           (str "npm") (proj ++ [str "web"; str "package.json"])).
  vm_compute. left. reflexivity.
Defined.

Lemma vendored_below (root rest : path) :
  vendored root = true -> vendored (root ++ rest) = true.
Proof.
  unfold vendored. intros H. apply existsb_exists in H.
  destruct H as (seg & Hseg & Hp). apply existsb_exists.
  exists seg. split; [exact Hseg | ].
  now rewrite has_part_app, Hp.
Qed.

(** X19: when the resolved root itself has a vendored part, the package-file
    locator returns nothing, whatever manifests the tree holds. *)
Theorem vendored_root_hides_packages fs root :
  vendored root = true -> find_package_files fs root = [].
Proof.
  intros H. unfold find_package_files, find_package_files_from.
  assert (E : forall pattern, package_matches fs root pattern = []).
  { intros pattern. unfold package_matches. apply filter_none.
    intros p Hp. apply rglob_paths in Hp. destruct Hp as (mid & ->).
    now rewrite vendored_below. }
  induction search_patterns as [ | pm pats IH]; [reflexivity | ].
  cbn [fold_left]. now rewrite E.
Qed.

Lemma vendored_root_hides_packages_witness :
  find_package_files fs_below_vendor vendor_proj = []
  /\ rglob fs_below_vendor vendor_proj (str "package.json")
     = [vendor_proj ++ [str "package.json"]].
Proof.
  split.
  - apply vendored_root_hides_packages. reflexivity.
  - reflexivity.
Defined.

(* ================================================================== *)
(** ** Files without a declaration *)

Lemma lang_seqs_member (rs : list regex) :
  forall q r,
    lang (seqs rs) q -> In r rs ->
    exists a x b, q = a ++ x ++ b /\ lang r x.
Proof.
  induction rs as [ | r0 rs IH]; intros q r L Hin; [contradiction | ].
  destruct rs as [ | r1 rs].
  - destruct Hin as [<- | []]. simpl in L.
    exists [], q, []. now rewrite app_nil_r.
  - change (seqs (r0 :: r1 :: rs)) with (Seq r0 (seqs (r1 :: rs))) in L.
    apply lang_Seq_inv in L. destruct L as (a0 & q' & -> & L0 & L').
    destruct Hin as [<- | Hin].
    + exists [], a0, q'. auto.
    + destruct (IH q' r L' Hin) as (a & x & b & -> & Lx).
      exists (a0 ++ a), x, b. now rewrite <- app_assoc.
Qed.

Lemma finditer_occurrence r s m :
  In m (finditer r s) ->
  exists pre q rest, s = pre ++ q ++ rest /\ lang r q.
Proof.
  intros H. destruct (finditer_spec r s) as [F _].
  rewrite Forall_forall in F. destruct (F m H) as (rest & Hm & _).
  apply match_here_sound in Hm.
  destruct (matches_lang Hm) as (q & E & L).
  exists (firstn (m_start m) s), q, rest. split; [ | exact L].
  rewrite <- E. symmetry. apply firstn_skipn.
Qed.

(** A text a pattern list has matched somewhere holds every literal of the
    list. *)
Lemma finditer_literal (rs : list regex) (lit s : text) (m : Match) :
  In (Lits lit) rs ->
  In m (finditer (seqs rs) s) ->
  contains lit s = true.
Proof.
  intros Hin Hm. apply finditer_occurrence in Hm.
  destruct Hm as (pre & q & rest & -> & L).
  destruct (@lang_seqs_member rs q (Lits lit) L Hin) as (a & x & b & -> & Lx).
  apply lang_Lits in Lx. subst x.
  replace (pre ++ (a ++ lit ++ b) ++ rest)
    with ((pre ++ a) ++ lit ++ (b ++ rest))
    by (repeat rewrite <- app_assoc; reflexivity).
  apply contains_middle.
Qed.

(** X5: a file that nowhere holds the text [models.Model] yields no entity
    from the Django extractor, and a file that nowhere holds the text
    [model] yields none from the Prisma extractor. *)
Theorem no_marker_no_entity content :
  (contains (str "models.Model") content = false ->
   parse_django_text content = [])
  /\ (contains (str "model") content = false ->
      parse_prisma_text content = []).
Proof.
  split; intros H.
  - unfold parse_django_text.
    destruct (finditer class_pattern content) as [ | m ms] eqn:E;
      [reflexivity | ].
    assert (Hm : In m (finditer class_pattern content))
      by (rewrite E; now left).
    unfold class_pattern in Hm.
    apply (finditer_literal _ (str "models.Model")) in Hm;
      [congruence | simpl; tauto].
  - unfold parse_prisma_text.
    destruct (finditer model_pattern content) as [ | m ms] eqn:E;
      [reflexivity | ].
    assert (Hm : In m (finditer model_pattern content))
      by (rewrite E; now left).
    unfold model_pattern in Hm.
    apply (finditer_literal _ (str "model")) in Hm;
      [congruence | simpl; tauto].
Qed.

Lemma no_marker_no_entity_witness :
  parse_django_text plain_class_py = [].
Proof.
  apply (proj1 (no_marker_no_entity plain_class_py)).
  vm_compute. reflexivity.
Defined.
